(** * xpublish-edr: the EDR position query handler

    A shallow embedding of [src/xpublish_edr/plugin.py]: the cache key,
    the format registry and the [get_position] handler, with the
    labelled-array engine, the cache, the formatters and the clock taken
    as collaborators of the handler. *)

From stdpp Require Import base strings list gmap.
From Stdlib Require Import ZArith Lia Ascii String DecimalString.

Open Scope string_scope.

(** ** Python values the handler manipulates *)

Module Py.

(** [s.split(sep)] for a one-character separator: the result always has
    one more element than [s] has separators. *)
Fixpoint split (sep : ascii) (s : string) : list string :=
  match s with
  | EmptyString => [EmptyString]
  | String c s' =>
      if Ascii.eqb c sep then EmptyString :: split sep s'
      else match split sep s' with
           | [] => [String c EmptyString]
           | w :: ws => String c w :: ws
           end
  end.

(** Number of occurrences of a character in a string. *)
Fixpoint count (sep : ascii) (s : string) : nat :=
  match s with
  | EmptyString => 0
  | String c s' => (if Ascii.eqb c sep then 1 else 0) + count sep s'
  end.

(** [needle in haystack] on strings. *)
Fixpoint contains (needle haystack : string) : bool :=
  String.prefix needle haystack ||
  match haystack with
  | EmptyString => false
  | String _ h' => contains needle h'
  end.

(** Truth value of a [str]: the empty string is false. *)
Definition truthy_str (s : string) : bool :=
  match s with EmptyString => false | _ => true end.

(** Truth value of an [Optional[str]]: [None] and [""] are false. *)
Definition truthy (o : option string) : bool :=
  match o with None => false | Some s => truthy_str s end.

(** The exceptions that occur in the handler.  [KeyError] and
    [ValueError] carry [str(e)], the text an f-string renders. *)
Inductive exn :=
  | KeyError (msg : string)
  | ValueError (msg : string)
  | AssertionError
  | HTTPException (status_code : Z) (detail : string)
  | OtherError (name msg : string).

Inductive result (A : Type) :=
  | Ok (a : A)
  | Raise (e : exn).
Arguments Ok {A} a.
Arguments Raise {A} e.

(** *** Dictionaries in insertion order

    A [dict] is a list of items with pairwise distinct keys; iteration
    follows the list. *)
Section Dict.
Context {V : Type}.

Definition dict := list (string * V).

Fixpoint getitem (d : dict) (k : string) : option V :=
  match d with
  | [] => None
  | (k', v) :: d' => if String.eqb k' k then Some v else getitem d' k
  end.

(** [d[k] = v]: overwrite in place, or append a new item. *)
Fixpoint setitem (d : dict) (k : string) (v : V) : dict :=
  match d with
  | [] => [(k, v)]
  | (k', v') :: d' =>
      if String.eqb k' k then (k', v) :: d' else (k', v') :: setitem d' k v
  end.

(** [del d[k]] for a key that is present. *)
Fixpoint delitem (d : dict) (k : string) : dict :=
  match d with
  | [] => []
  | (k', v') :: d' =>
      if String.eqb k' k then d' else (k', v') :: delitem d' k
  end.

(** [dict(items)]: later items overwrite earlier ones with the same key
    and keep the earlier position. *)
Definition dict_of_items (items : list (string * V)) : dict :=
  foldl (fun d kv => setitem d kv.1 kv.2) [] items.

Definition keys (d : dict) : list string := d.*1.
End Dict.
Arguments dict V : clear implicits.

(** [k in xs] for a collection of strings. *)
Definition mem (k : string) (xs : list string) : bool :=
  existsb (String.eqb k) xs.

End Py.

Import Py.

(** ** Data model *)

(** A value passed to a selection: a number ([point.x], [point.y], [z]),
    a string label, or [slice(start, stop)]. *)
Inductive indexer (Scalar : Type) :=
| Num (v : Scalar)
| Label (s : string)
| Slice (start stop : string).
Arguments Num {Scalar} v.
Arguments Label {Scalar} s.
Arguments Slice {Scalar} start stop.

(** The [Response] of the web framework: the payload and the headers. *)
Record Response := {
  body : string;
  headers : dict string
}.

(** The [Request] of the web framework.  It hashes and compares by
    identity; [query_params] lists the raw items of the query string. *)
Record Request := {
  request_id : nat;
  query_params : list (string * string)
}.

Record Point (Scalar : Type) := {
  x : Scalar;
  y : Scalar
}.
Arguments x {Scalar} _.
Arguments y {Scalar} _.

(** Modelled from the spec: the declaration of [EDRQuery] in
    [xpublish_edr/query.py] is not part of the sources.  The spec gives
    the fields: [point] (required X/Y pair), [z] (optional scalar),
    [datetime], [parameters] and [format] (optional strings). *)
Record EDRQuery (Scalar : Type) := {
  point : Point Scalar;
  z : option Scalar;
  datetime : option string;
  parameters : option string;
  format : option string
}.
Arguments point {Scalar} _.
Arguments z {Scalar} _.
Arguments datetime {Scalar} _.
Arguments parameters {Scalar} _.
Arguments format {Scalar} _.

(** A call the handler makes on a collaborator, with its arguments. *)
Inductive call (Scalar Dataset Key : Type) :=
| CacheGet (k : Key)
| CachePut (k : Key) (r : Response) (cost : nat) (size : Z)
| CfSel (ds : Dataset) (indexers : list (string * indexer Scalar))
        (method : option string)
| CfGetitem (ds : Dataset) (names : list string)
| Sel (ds : Dataset) (indexers : dict (indexer Scalar))
      (method : option string)
| ToThread (fn : Dataset -> result (option Response)) (ds : Dataset).
Arguments CacheGet {Scalar Dataset Key} k.
Arguments CachePut {Scalar Dataset Key} k r cost size.
Arguments CfSel {Scalar Dataset Key} ds indexers method.
Arguments CfGetitem {Scalar Dataset Key} ds names.
Arguments Sel {Scalar Dataset Key} ds indexers method.
Arguments ToThread {Scalar Dataset Key} fn ds.

(** ** Collaborators

    Everything the handler imports: the labelled-array engine
    ([xarray] with [cf_xarray]), [dask.base.tokenize], the entry points
    of the format plugins, the default formatter, the reserved parameter
    names of [xpublish_edr/query.py], [cachey.Cache], the builtin [int]
    and the time each call takes. *)
Class Collaborators := {
  Scalar : Type;
  (** [bool(v)] of a number *)
  truth : Scalar -> bool;
  Dataset : Type;
  Token : Type;
  tokenize : Dataset -> Token;
  (** [ds.cf.sel(name=value, ..., method=method)] *)
  cf_sel : Dataset -> list (string * indexer Scalar) -> option string ->
           result Dataset;
  (** [ds.cf[names]] *)
  cf_getitem : Dataset -> list string -> result Dataset;
  (** [ds.sel(indexers, method=method)] *)
  sel : Dataset -> dict (indexer Scalar) -> option string -> result Dataset;
  (** name and loaded function of each
      [xpublish_edr_position_formats] entry point; a formatter that
      returns something other than a [Response] returns [None] *)
  entry_points : list (string * (Dataset -> result (option Response)));
  to_cf_covjson : Dataset -> result (option Response);
  edr_query_params : list string;
  (** [int(s)]; [None] when [s] is not an integer literal *)
  int : string -> option Z;
  Cache : Type;
  cache_get : Cache -> string * Request * EDRQuery Scalar * Token ->
              option Response * Cache;
  cache_put : Cache -> string * Request * EDRQuery Scalar * Token ->
              Response -> nat -> Z -> Cache;
  (** ticks of the clock a call takes *)
  duration : call Scalar Dataset (string * Request * EDRQuery Scalar * Token) ->
             nat
}.

Section Plugin.
Context `{C : Collaborators}.

Definition Key : Type := string * Request * EDRQuery Scalar * Token.
Definition format_fn : Type := Dataset -> result (option Response).
Definition Call : Type := call Scalar Dataset Key.

(** ** The handler's effects: cache, clock and the calls made so far *)

Record state := {
  st_cache : Cache;
  st_clock : nat;
  st_calls : list Call
}.

Definition M (A : Type) : Type := state -> result A * state.

Definition ret {A} (a : A) : M A := fun s => (Ok a, s).

Definition bind {A B} (m : M A) (k : A -> M B) : M B :=
  fun s => match m s with
           | (Ok a, s') => k a s'
           | (Raise e, s') => (Raise e, s')
           end.

Definition raise {A} (e : exn) : M A := fun s => (Raise e, s).

Definition lift {A} (r : result A) : M A := fun s => (r, s).

(** [try: m except E: h]: [handler e] is [None] when no clause matches. *)
Definition try_except {A} (m : M A) (handler : exn -> option (M A)) : M A :=
  fun s => match m s with
           | (Ok a, s') => (Ok a, s')
           | (Raise e, s') =>
               match handler e with
               | Some h => h s'
               | None => (Raise e, s')
               end
           end.

Notation "'let!' x ':=' m 'in' k" := (bind m (fun x => k))
  (at level 10, x pattern, m at level 100, k at level 200).

(** A call on a collaborator is logged and takes its time. *)
Definition log (c : Call) (s : state) : state :=
  {| st_cache := st_cache s;
     st_clock := st_clock s + duration c;
     st_calls := st_calls s ++ [c] |}.

Definition calling {A} (c : Call) (r : result A) : M A :=
  fun s => (r, log c s).

Definition perf_counter : M nat := fun s => (Ok (st_clock s), s).

(** [with CostTimer() as ct: block]; returns [ct.time] and the block's
    bindings.  An exception of the block propagates. *)
Definition CostTimer {A} (block : M A) : M (nat * A) :=
  let! start := perf_counter in
  let! a := block in
  let! stop := perf_counter in
  ret (stop - start, a).

Definition set_cache (c : Cache) (s : state) : state :=
  {| st_cache := c; st_clock := st_clock s; st_calls := st_calls s |}.

(** [cache.get(key)]; the cache may update its own bookkeeping. *)
Definition cache_get_call (k : Key) : M (option Response) :=
  fun s =>
    let (r, c') := cache_get (st_cache s) k in
    (Ok r, log (CacheGet k) (set_cache c' s)).

(** [cache.put(key, value, cost, nbytes)] *)
Definition cache_put_call (k : Key) (r : Response) (cost : nat) (size : Z)
  : M unit :=
  fun s =>
    (Ok tt, log (CachePut k r cost size)
                (set_cache (cache_put (st_cache s) k r cost size) s)).

(** A computation that, from every state, gives the result [r] after
    making the calls [L]. *)
Definition logs (L : list Call) (s : state) : state :=
  foldl (fun s c => log c s) s L.

Definition emits {A} (m : M A) (r : result A) (L : list Call) : Prop :=
  forall s, m s = (r, logs L s).

Definition total_duration (L : list Call) : nat := sum_list (duration <$> L).

Definition is_selection (c : Call) : bool :=
  match c with
  | CfSel _ _ _ | CfGetitem _ _ | Sel _ _ _ => true
  | _ => false
  end.

Definition is_sel (c : Call) : bool :=
  match c with Sel _ _ _ => true | _ => false end.

Definition is_format (c : Call) : bool :=
  match c with ToThread _ _ => true | _ => false end.

Definition is_put (c : Call) : bool :=
  match c with CachePut _ _ _ _ => true | _ => false end.

(** ** [plugin.py] *)

(** Generate a cache key from the request and query parameters. *)
Definition cache_key_from_request (route : string) (request : Request)
    (query : EDRQuery Scalar) (dataset : Dataset) : Key :=
  (route, request, query, tokenize dataset).

(** The response format functions of the registered entry points, by name. *)
Definition position_formats : gmap string format_fn :=
  foldl (fun formats entry_point => <[entry_point.1 := entry_point.2]> formats)
        ∅ entry_points.

Definition call_cf_sel (ds : Dataset)
    (indexers : list (string * indexer Scalar)) (method : option string)
  : M Dataset :=
  calling (CfSel ds indexers method) (cf_sel ds indexers method).

Definition call_cf_getitem (ds : Dataset) (names : list string) : M Dataset :=
  calling (CfGetitem ds names) (cf_getitem ds names).

Definition call_sel (ds : Dataset) (indexers : dict (indexer Scalar))
    (method : option string) : M Dataset :=
  calling (Sel ds indexers method) (sel ds indexers method).

(** [await asyncio.to_thread(format_fn, ds)] *)
Definition to_thread (fn : format_fn) (ds : Dataset) : M (option Response) :=
  calling (ToThread fn ds) (fn ds).

(** [if query.z:] *)
Definition truthy_z (o : option Scalar) : bool :=
  match o with None => false | Some v => truth v end.

(** Lines 105-114: the point selection. *)
Definition select_point (query : EDRQuery Scalar) (dataset : Dataset)
  : M Dataset :=
  try_except
    (call_cf_sel dataset
       [("X", Num (x (point query))); ("Y", Num (y (point query)))]
       (Some "nearest"))
    (fun e => match e with
              | KeyError _ =>
                  Some (raise (HTTPException 404
                    "Dataset does not have CF Convention compliant metadata"))
              | _ => None
              end).

(** Lines 116-117: the vertical selection. *)
Definition select_vertical (query : EDRQuery Scalar) (dataset ds : Dataset)
  : M Dataset :=
  match z query with
  | Some v =>
      if truth v then call_cf_sel dataset [("Z", Num v)] (Some "nearest")
      else ret ds
  | None => ret ds
  end.

(** Lines 119-137: the temporal selection. *)
Definition select_temporal (query : EDRQuery Scalar) (ds : Dataset)
  : M Dataset :=
  if truthy (datetime query) then
    let datetimes := split "/" (default "" (datetime query)) in
    try_except
      (match datetimes with
       | [d0] => call_cf_sel ds [("T", Label d0)] (Some "nearest")
       | [d0; d1] => call_cf_sel ds [("T", Slice d0 d1)] None
       | _ => raise (HTTPException 404 "Invalid datetimes submitted")
       end)
      (fun e => match e with
                | ValueError msg =>
                    Some (raise (HTTPException 404
                      ("Invalid datetime (" +:+ msg +:+ ")")))
                | _ => None
                end)
  else ret ds.

(** Lines 139-146: the variable subsetting. *)
Definition select_variables (query : EDRQuery Scalar) (ds : Dataset)
  : M Dataset :=
  if truthy (parameters query) then
    try_except
      (call_cf_getitem ds (split "," (default "" (parameters query))))
      (fun e => match e with
                | KeyError msg =>
                    Some (raise (HTTPException 404
                      ("Invalid variable: " +:+ msg)))
                | _ => None
                end)
  else ret ds.

(** Lines 150-153: the query parameters that are not the query's own. *)
Definition extra_query_params (request : Request) : dict string :=
  let query_params := dict_of_items (query_params request) in
  foldl (fun d query_param =>
           if mem query_param edr_query_params then delitem d query_param
           else d)
        query_params (keys query_params).

(** Lines 155-168: the loop over the items of [query_params].  A value
    with one [/] is replaced by a slice under its key and switches
    [method] to [None]. *)
Fixpoint slice_ranges (items : list (string * string))
    (query_params : dict (indexer Scalar)) (method : option string)
  : result (dict (indexer Scalar) * option string) :=
  match items with
  | [] => Ok (query_params, method)
  | (key, value) :: items' =>
      match split "/" value with
      | [_] => slice_ranges items' query_params method
      | [v0; v1] =>
          slice_ranges items' (setitem query_params key (Slice v0 v1)) None
      | _ => Raise (HTTPException 404
                      ("Too many values for selecting " +:+ key))
      end
  end.

(** Lines 150-170: the selection on the extra dimensions. *)
Definition select_extra (request : Request) (ds : Dataset) : M Dataset :=
  let query_params := extra_query_params request in
  let! (query_params, method) :=
    lift (slice_ranges query_params (prod_map id Label <$> query_params)
                       (Some "nearest")) in
  call_sel ds query_params method.

(** Lines 172-182: the formatter. *)
Definition resolve_format (query : EDRQuery Scalar) : M format_fn :=
  if truthy (format query) then
    let name := default "" (format query) in
    match position_formats !! name with
    | Some fn => ret fn
    | None =>
        raise (HTTPException 404
          (name +:+ " is not a valid format for EDR position queries. "
                +:+ "Get `./formats` for valid formats"))
    end
  else ret to_cf_covjson.

(** Lines 104-182: the block under [with CostTimer() as ct]. *)
Definition timed_block (request : Request) (query : EDRQuery Scalar)
    (dataset : Dataset) : M (format_fn * Dataset) :=
  let! ds := select_point query dataset in
  let! ds := select_vertical query dataset ds in
  let! ds := select_temporal query ds in
  let! ds := select_variables query ds in
  let! ds := select_extra request ds in
  let! format_fn := resolve_format query in
  ret (format_fn, ds).

(** [int(response.headers["content-length"])] *)
Definition content_length (response : Response) : M Z :=
  match getitem (headers response) "content-length" with
  | None => raise (KeyError "'content-length'")
  | Some v =>
      match int v with
      | Some n => ret n
      | None => raise (ValueError
                  ("invalid literal for int() with base 10: '" +:+ v +:+ "'"))
      end
  end.

(** Returns position data based on WKT [Point(lon lat)] coordinates. *)
Definition get_position (request : Request) (query : EDRQuery Scalar)
    (dataset : Dataset) : M Response :=
  let cache_key := cache_key_from_request "position" request query dataset in
  let! response := cache_get_call cache_key in
  match response with
  | Some response => ret response
  | None =>
      let! (ct_time, (format_fn, ds)) :=
        CostTimer (timed_block request query dataset) in
      let! response := to_thread format_fn ds in
      match response with
      | None => raise AssertionError
      | Some response =>
          let! size := content_length response in
          let! _ := cache_put_call cache_key response ct_time size in
          ret response
      end
  end.

(** ** Vocabulary of the properties *)

(** Number of tokens of a value: one more than its [/] separators. *)
Definition tokens (value : string) : nat := List.length (split "/" value).

(** What the selection receives for an extra parameter: the slice of a
    pair [start/stop], the value itself otherwise. *)
Definition as_indexer (value : string) : indexer Scalar :=
  match split "/" value with
  | [v0; v1] => Slice v0 v1
  | _ => Label value
  end.

(** The steps that follow the vertical selection, from the dataset [ds]. *)
Definition chain_from (request : Request) (query : EDRQuery Scalar)
    (ds : Dataset) : M (format_fn * Dataset) :=
  let! ds := select_temporal query ds in
  let! ds := select_variables query ds in
  let! ds := select_extra request ds in
  let! format_fn := resolve_format query in
  ret (format_fn, ds).

(** What the handler does after the timed block on a cache miss, from the
    block's outcome [r] and its calls [L]. *)
Definition after_block (key : Key) (L : list Call)
    (r : result (format_fn * Dataset)) (s1 : state) : result Response * state :=
  match r with
  | Raise e => (Raise e, s1)
  | Ok (fn, ds) =>
      let s2 := log (ToThread fn ds) s1 in
      match fn ds with
      | Raise e => (Raise e, s2)
      | Ok None => (Raise AssertionError, s2)
      | Ok (Some response) =>
          match getitem (headers response) "content-length" with
          | None => (Raise (KeyError "'content-length'"), s2)
          | Some v =>
              match int v with
              | None =>
                  (Raise (ValueError
                     ("invalid literal for int() with base 10: '" +:+ v +:+ "'")),
                   s2)
              | Some size =>
                  (Ok response,
                   log (CachePut key response (total_duration L) size)
                     (set_cache
                        (cache_put (st_cache s2) key response (total_duration L) size)
                        s2))
              end
          end
      end
  end.

(** The costs passed to [cache.put], in order. *)
Definition put_costs (calls : list Call) : list nat :=
  omap (fun c => match c with
                 | CachePut _ _ cost _ => Some cost
                 | _ => None
                 end) calls.

(** Time spent in the selection and formatting calls. *)
Definition path_time (calls : list Call) : nat :=
  total_duration (List.filter (fun c => is_selection c || is_format c) calls).

(** A computation that only makes selection calls, at most [n] of them
    [ds.sel] calls, with a result that does not depend on the state. *)
Definition selects {A} (m : M A) (n : nat) : Prop :=
  exists r L, emits m r L /\ forallb is_selection L = true /\
              (List.length (List.filter is_sel L) <= n)%nat.

End Plugin.

(** ** A small instance of the collaborators

    Numbers are integers; a dataset is a grid described by the CF axes its
    metadata identifies, its variables, the labels of its other dimensions
    and the selections applied so far. *)
Module Demo.

Record grid := {
  axes : list string;
  variables : list string;
  dims : dict (list string);
  picked : list (string * indexer Z)
}.

Definition quoted (s : string) : string := "'" +:+ s +:+ "'".

Definition picking (g : grid) (more : list (string * indexer Z)) : grid :=
  {| axes := axes g; variables := variables g; dims := dims g;
     picked := picked g ++ more |}.

(** A time label must start with a digit. *)
Definition is_time (s : string) : bool :=
  match s with
  | String c _ => Ascii.leb "0" c && Ascii.leb c "9"
  | EmptyString => false
  end.

Definition bad_time (ix : indexer Z) : option string :=
  match ix with
  | Label s => if is_time s then None else Some s
  | Slice a b =>
      if is_time a then (if is_time b then None else Some b) else Some a
  | Num _ => None
  end.

(** [KeyError] for an axis the metadata does not identify, [ValueError]
    for a time that does not parse. *)
Definition grid_cf_sel (g : grid) (indexers : list (string * indexer Z))
    (method : option string) : result grid :=
  match List.find (fun kv => negb (mem kv.1 (axes g))) indexers with
  | Some kv => Raise (KeyError (quoted kv.1))
  | None =>
      match List.find (fun kv => String.eqb kv.1 "T" && bool_decide (is_Some (bad_time kv.2)))
                      indexers with
      | Some kv =>
          Raise (ValueError ("could not convert string to Timestamp: "
                             +:+ default "" (bad_time kv.2)))
      | None => Ok (picking g indexers)
      end
  end.

Definition grid_cf_getitem (g : grid) (names : list string) : result grid :=
  match List.find (fun n => negb (mem n (variables g))) names with
  | Some n => Raise (KeyError (quoted n))
  | None => Ok {| axes := axes g; variables := names; dims := dims g;
                  picked := picked g |}
  end.

(** Without a method a label must be one of the dimension's labels. *)
Definition misses (g : grid) (method : option string)
    (kv : string * indexer Z) : option string :=
  match getitem (dims g) kv.1 with
  | None => Some kv.1
  | Some labels =>
      match kv.2, method with
      | Label s, None => if mem s labels then None else Some s
      | _, _ => None
      end
  end.

Definition grid_sel (g : grid) (indexers : dict (indexer Z))
    (method : option string) : result grid :=
  match List.find (fun kv => bool_decide (is_Some (misses g method kv))) indexers with
  | Some kv => Raise (KeyError (quoted (default "" (misses g method kv))))
  | None => Ok (picking g indexers)
  end.

Definition respond (payload : string) : Response :=
  {| body := payload;
     headers :=
       [("content-length",
         DecimalString.NilEmpty.string_of_uint (Nat.to_uint (String.length payload)));
        ("content-type", "application/json")] |}.

Definition covjson (g : grid) : result (option Response) :=
  Ok (Some (respond ("{" +:+ String.concat "," (variables g) +:+ "}"))).

Definition csv (g : grid) : result (option Response) :=
  Ok (Some (respond (String.concat ";" (variables g)))).

#[export] Instance indexer_eq_dec : EqDecision (indexer Z).
Proof. solve_decision. Defined.
#[export] Instance grid_eq_dec : EqDecision grid.
Proof. solve_decision. Defined.
#[export] Instance response_eq_dec : EqDecision Response.
Proof. solve_decision. Defined.
#[export] Instance request_eq_dec : EqDecision Request.
Proof. solve_decision. Defined.
#[export] Instance point_eq_dec : EqDecision (Point Z).
Proof. solve_decision. Defined.
#[export] Instance query_eq_dec : EqDecision (EDRQuery Z).
Proof. solve_decision. Defined.

(** A cache that keeps every entry. *)
Definition store : Type := list ((string * Request * EDRQuery Z * grid) * Response).

Definition store_get (c : store) (k : string * Request * EDRQuery Z * grid)
  : option Response * store :=
  (snd <$> List.find (fun kr => bool_decide (kr.1 = k)) c, c).

Definition store_put (c : store) (k : string * Request * EDRQuery Z * grid)
    (r : Response) (cost : nat) (size : Z) : store :=
  (k, r) :: c.

#[export] Instance collaborators : Collaborators := {|
  Scalar := Z;
  truth := fun v => negb (v =? 0)%Z;
  Dataset := grid;
  Token := grid;
  tokenize := fun g => g;
  cf_sel := grid_cf_sel;
  cf_getitem := grid_cf_getitem;
  sel := grid_sel;
  entry_points := [("cf_covjson", covjson); ("csv", csv)];
  to_cf_covjson := covjson;
  edr_query_params := ["coords"; "z"; "datetime"; "parameter-name"; "crs"; "f"];
  int := fun s => Z.of_int <$> DecimalString.NilZero.int_of_string s;
  Cache := store;
  cache_get := store_get;
  cache_put := store_put;
  duration := fun c => match c with ToThread _ _ => 5 | _ => 1 end
|}.

(** An ocean grid with a vertical axis and two extra dimensions. *)
Definition ocean : @Dataset collaborators :=
  {| axes := ["X"; "Y"; "Z"; "T"];
     variables := ["temp"; "salinity"; "u"];
     dims := [("level", ["2"; "3"; "4"]); ("depth", ["10"; "20"; "30"])];
     picked := [] |}.

(** A surface grid: no vertical axis, and no level [3]. *)
Definition surface : @Dataset collaborators :=
  {| axes := ["X"; "Y"; "T"];
     variables := ["temp"];
     dims := [("level", ["2.9"; "4"]); ("depth", ["10"; "20"; "30"])];
     picked := [] |}.

Definition fresh : @state collaborators :=
  {| st_cache := ([] : store); st_clock := 0; st_calls := [] |}.

Definition at_point (px py : Z) : EDRQuery (@Scalar collaborators) :=
  {| point := {| x := px; y := py |}; z := None; datetime := None;
     parameters := None; format := None |}.

Definition with_z (v : Z) (q : EDRQuery (@Scalar collaborators))
  : EDRQuery (@Scalar collaborators) :=
  {| point := point q; z := Some v; datetime := datetime q;
     parameters := parameters q; format := format q |}.

Definition with_datetime (d : string) (q : EDRQuery (@Scalar collaborators))
  : EDRQuery (@Scalar collaborators) :=
  {| point := point q; z := z q; datetime := Some d;
     parameters := parameters q; format := format q |}.

Definition with_parameters (p : string) (q : EDRQuery (@Scalar collaborators))
  : EDRQuery (@Scalar collaborators) :=
  {| point := point q; z := z q; datetime := datetime q;
     parameters := Some p; format := format q |}.

Definition with_format (f : string) (q : EDRQuery (@Scalar collaborators))
  : EDRQuery (@Scalar collaborators) :=
  {| point := point q; z := z q; datetime := datetime q;
     parameters := parameters q; format := Some f |}.

Definition request_of (n : nat) (items : list (string * string)) : Request :=
  {| request_id := n; query_params := items |}.

End Demo.

(** ** The formats endpoint and further vocabulary *)

Section Formats.
Context `{C : Collaborators}.

(** [fn.__doc__] of a format function. *)
Variable doc : format_fn -> option string.

(** Returns the various supported formats for position queries: the doc
    string of every registered format function, by name. *)
Definition get_position_formats : gmap string (option string) :=
  doc <$> position_formats.

End Formats.

Section Selection.
Context `{C : Collaborators}.

Notation "'let!' x ':=' m 'in' k" := (bind m (fun x => k))
  (at level 10, x pattern, m at level 100, k at level 200).

(** The selections on the axes and the variables, lines 105-146. *)
Definition select_axes (query : EDRQuery Scalar) (dataset : Dataset)
  : M Dataset :=
  let! ds := select_point query dataset in
  let! ds := select_vertical query dataset ds in
  let! ds := select_temporal query ds in
  select_variables query ds.

(** All the selections, lines 105-170: the timed block without the
    formatter's lookup. *)
Definition select_all (request : Request) (query : EDRQuery Scalar)
    (dataset : Dataset) : M Dataset :=
  let! ds := select_axes query dataset in
  select_extra request ds.

(** The query with every optional field that tests false ([None], the
    empty string, a false number) left out. *)
Definition without_empty (query : EDRQuery Scalar) : EDRQuery Scalar :=
  {| point := point query;
     z := if truthy_z (z query) then z query else None;
     datetime := if truthy (datetime query) then datetime query else None;
     parameters := if truthy (parameters query) then parameters query else None;
     format := if truthy (format query) then format query else None |}.

(** What [detail] the handler gives for an unknown format. *)
Definition invalid_format (name : string) : exn :=
  HTTPException 404
    (name +:+ " is not a valid format for EDR position queries. "
          +:+ "Get `./formats` for valid formats").

End Selection.

(** A second instance: the grids of [Demo] with a default formatter whose
    response has no headers. *)
Module Headless.

Definition bare (g : Demo.grid) : result (option Response) :=
  Ok (Some {| body := "{}"; headers := [] |}).

#[export] Instance collaborators : Collaborators := {|
  Scalar := Z;
  truth := @truth Demo.collaborators;
  Dataset := Demo.grid;
  Token := Demo.grid;
  tokenize := fun g => g;
  cf_sel := Demo.grid_cf_sel;
  cf_getitem := Demo.grid_cf_getitem;
  sel := Demo.grid_sel;
  entry_points := [("bare", bare)];
  to_cf_covjson := bare;
  edr_query_params := @edr_query_params Demo.collaborators;
  int := @int Demo.collaborators;
  Cache := Demo.store;
  cache_get := Demo.store_get;
  cache_put := Demo.store_put;
  duration := @duration Demo.collaborators
|}.

Definition ocean : @Dataset collaborators := Demo.ocean.

Definition fresh : @state collaborators :=
  {| st_cache := ([] : Demo.store); st_clock := 0; st_calls := [] |}.

Definition at_point (px py : Z) : EDRQuery (@Scalar collaborators) :=
  {| point := {| x := px; y := py |}; z := None; datetime := None;
     parameters := None; format := None |}.

End Headless.

(** * Properties *)

Open Scope list_scope.
Open Scope nat_scope.

(** ** Strings and dictionaries *)

Lemma split_length sep s : List.length (split sep s) = S (count sep s).
Proof.
  induction s as [|c s IH]; simpl; [done|].
  destruct (Ascii.eqb c sep); simpl; [by rewrite IH|].
  destruct (split sep s) as [|w ws]; simpl in *; [done|lia].
Qed.

Lemma split_one sep s :
  count sep s = 0 -> split sep s = [s].
Proof.
  induction s as [|c s IH]; simpl; [done|].
  destruct (Ascii.eqb c sep); [done|]. simpl. intros H.
  by rewrite (IH H).
Qed.

Lemma prefix_refl s : String.prefix s s = true.
Proof.
  induction s as [|c s IH]; simpl; [done|].
  by destruct (ascii_dec c c).
Qed.

Lemma prefix_app s t : String.prefix s (s +:+ t) = true.
Proof.
  induction s as [|c s IH]; simpl; [by destruct t|].
  by destruct (ascii_dec c c).
Qed.

Lemma contains_here needle rest : contains needle (needle +:+ rest) = true.
Proof.
  destruct needle; simpl.
  - by destruct rest.
  - destruct (ascii_dec a a); [|done]. by rewrite prefix_app.
Qed.

Lemma contains_app_r needle before after :
  contains needle after = true -> contains needle (before +:+ after) = true.
Proof.
  intros H. induction before as [|c b IH]; simpl; [done|].
  rewrite IH. apply orb_true_r.
Qed.

Lemma mem_true k xs : mem k xs = true <-> k ∈ xs.
Proof.
  unfold mem. rewrite existsb_exists. split.
  - intros (y & Hin & ->%String.eqb_eq). by apply list_elem_of_In.
  - intros H. exists k. split; [by apply list_elem_of_In|apply String.eqb_refl].
Qed.

Section DictFacts.
Context {V : Type}.
Implicit Types (d : dict V) (k : string) (v : V).

Lemma keys_setitem_in d k v : k ∈ keys d -> keys (setitem d k v) = keys d.
Proof.
  induction d as [|[k' v'] d IH]; simpl; [by intros ?%not_elem_of_nil|].
  destruct (String.eqb_spec k' k) as [->|Hne]; [done|].
  intros [?|Hin]%elem_of_cons; [congruence|].
  unfold keys in *. simpl. f_equal. by apply IH.
Qed.

Lemma keys_setitem_notin d k v : k ∉ keys d -> keys (setitem d k v) = (keys d ++ [k])%list.
Proof.
  induction d as [|[k' v'] d IH]; simpl; [done|].
  intros [Hne Hnin]%not_elem_of_cons.
  destruct (String.eqb_spec k' k) as [->|_]; [done|].
  unfold keys in *. simpl. f_equal. by apply IH.
Qed.

Lemma NoDup_setitem d k v : NoDup (keys d) -> NoDup (keys (setitem d k v)).
Proof.
  intros Hd. destruct (decide (k ∈ keys d)) as [Hin|Hnin].
  - by rewrite keys_setitem_in.
  - rewrite keys_setitem_notin by done.
    apply NoDup_app. split; [done|]. split; [|apply NoDup_singleton].
    intros y Hy ->%list_elem_of_singleton. done.
Qed.

Lemma NoDup_dict_of_items (items : list (string * V)) :
  NoDup (keys (dict_of_items items)).
Proof.
  unfold dict_of_items.
  assert (forall d, NoDup (keys d) ->
            NoDup (keys (foldl (fun d kv => setitem d kv.1 kv.2) d items))) as H.
  { induction items as [|kv items IH]; simpl; [done|].
    intros d Hd. apply IH. by apply NoDup_setitem. }
  apply H. constructor.
Qed.

Lemma delitem_filter d k :
  NoDup (keys d) ->
  delitem d k = List.filter (fun kv => negb (String.eqb kv.1 k)) d.
Proof.
  induction d as [|[k' v'] d IH]; simpl; [done|].
  intros [Hnin Hd]%NoDup_cons.
  destruct (String.eqb_spec k' k) as [->|Hne]; simpl.
  - symmetry. clear IH Hd. induction d as [|[k2 v2] d IH]; simpl; [done|].
    apply not_elem_of_cons in Hnin as [Hne Hnin]. simpl in *.
    destruct (String.eqb_spec k2 k) as [->|_]; [done|]. simpl.
    f_equal. by apply IH.
  - by rewrite IH.
Qed.

Lemma NoDup_filter_keys d (f : string * V -> bool) :
  NoDup (keys d) -> NoDup (keys (List.filter f d)).
Proof.
  induction d as [|[k' v'] d IH]; simpl; [done|].
  intros [Hnin Hd]%NoDup_cons. destruct (f (k', v')); simpl; [|by apply IH].
  apply NoDup_cons. split; [|by apply IH].
  intros Hin. apply Hnin. unfold keys in *.
  apply list_elem_of_fmap in Hin as (kv & -> & Hkv).
  apply list_elem_of_fmap. exists kv. split; [done|].
  apply list_elem_of_In. apply list_elem_of_In in Hkv.
  by apply List.filter_In in Hkv as [? _].
Qed.

End DictFacts.

(** ** The handler *)

Section PluginFacts.
Context `{C : Collaborators}.

Notation "'let!' x ':=' m 'in' k" := (bind m (fun x => k))
  (at level 10, x pattern, m at level 100, k at level 200).

Lemma logs_app (L1 L2 : list Call) s : logs (L1 ++ L2) s = logs L2 (logs L1 s).
Proof. unfold logs. apply foldl_app. Qed.

Lemma st_calls_logs (L : list Call) s : st_calls (logs L s) = st_calls s ++ L.
Proof.
  revert s. induction L as [|c L IH]; intros s; simpl.
  - by rewrite app_nil_r.
  - rewrite IH. simpl. by rewrite <- app_assoc.
Qed.

Lemma st_cache_logs (L : list Call) s : st_cache (logs L s) = st_cache s.
Proof. revert s. induction L as [|c L IH]; intros s; simpl; [done|by rewrite IH]. Qed.

Lemma st_clock_logs (L : list Call) s :
  st_clock (logs L s) = st_clock s + total_duration L.
Proof.
  revert s. induction L as [|c L IH]; intros s.
  - unfold total_duration. simpl. lia.
  - change (logs (c :: L) s) with (logs L (log c s)). rewrite IH.
    unfold total_duration. rewrite fmap_cons. simpl. lia.
Qed.

Lemma emits_ret {A} (a : A) : emits (ret a) (Ok a) [].
Proof. by intros s. Qed.

Lemma emits_raise {A} e : emits (raise (A := A) e) (Raise e) [].
Proof. by intros s. Qed.

Lemma emits_lift {A} (r : result A) : emits (lift r) r [].
Proof. by intros s. Qed.

Lemma emits_calling {A} c (r : result A) : emits (calling c r) r [c].
Proof. by intros s. Qed.

Lemma emits_bind_ok {A B} (m : M A) (k : A -> M B) a L1 r L2 :
  emits m (Ok a) L1 -> emits (k a) r L2 -> emits (bind m k) r (L1 ++ L2).
Proof. intros Hm Hk s. unfold bind. by rewrite Hm, Hk, logs_app. Qed.

Lemma emits_bind_raise {A B} (m : M A) (k : A -> M B) e L :
  emits m (Raise e) L -> emits (bind m k) (Raise e) L.
Proof. intros Hm s. unfold bind. by rewrite Hm. Qed.

Lemma selects_ret {A} (a : A) : selects (ret a) 0.
Proof. exists (Ok a), []. by split; [apply emits_ret|]. Qed.

Lemma selects_raise {A} e : selects (raise (A := A) e) 0.
Proof. exists (Raise e), []. by split; [apply emits_raise|]. Qed.

Lemma selects_lift {A} (r : result A) : selects (lift r) 0.
Proof. exists r, []. by split; [apply emits_lift|]. Qed.

Lemma selects_calling {A} c (r : result A) :
  is_selection c = true -> selects (calling c r) 1.
Proof.
  intros Hc. exists r, [c]. split; [apply emits_calling|]. simpl.
  rewrite Hc. split; [done|]. destruct (is_sel c); simpl; lia.
Qed.

Lemma selects_calling_other {A} c (r : result A) :
  is_selection c = true -> is_sel c = false -> selects (calling c r) 0.
Proof.
  intros Hc Hs. exists r, [c]. split; [apply emits_calling|]. simpl.
  by rewrite Hc, Hs.
Qed.

Lemma selects_bind {A B} (m : M A) (k : A -> M B) n1 n2 :
  selects m n1 -> (forall a, selects (k a) n2) -> selects (bind m k) (n1 + n2).
Proof.
  intros (r1 & L1 & Hm & HL1 & Hn1) Hk. destruct r1 as [a|e].
  - destruct (Hk a) as (r2 & L2 & Hka & HL2 & Hn2).
    exists r2, (L1 ++ L2). split; [by eapply emits_bind_ok|].
    rewrite forallb_app, HL1, HL2, List.filter_app, length_app. split; [done|lia].
  - exists (Raise e), L1. split; [by apply emits_bind_raise|]. split; [done|lia].
Qed.

Lemma selects_try_except {A} (m : M A) handler n :
  selects m n ->
  (forall e h, handler e = Some h -> selects h 0) ->
  selects (try_except m handler) n.
Proof.
  intros (r & L & Hm & HL & Hn) Hh. destruct r as [a|e].
  - exists (Ok a), L. split; [|done]. intros s. unfold try_except. by rewrite Hm.
  - destruct (handler e) as [h|] eqn:He.
    + destruct (Hh e h He) as (r2 & L2 & Hh2 & HL2 & Hn2).
      exists r2, (L ++ L2). split.
      * intros s. unfold try_except. by rewrite Hm, He, Hh2, logs_app.
      * rewrite forallb_app, HL, HL2, List.filter_app, length_app. split; [done|lia].
    + exists (Raise e), L. split; [|done].
      intros s. unfold try_except. by rewrite Hm, He.
Qed.

(** *** The stages only select *)

Lemma selects_call_cf_sel ds indexers method :
  selects (call_cf_sel ds indexers method) 0.
Proof. by apply selects_calling_other. Qed.

Lemma selects_select_point query dataset : selects (select_point query dataset) 0.
Proof.
  apply selects_try_except; [apply selects_call_cf_sel|].
  intros [] h [= <-]. apply selects_raise.
Qed.

Lemma selects_select_vertical query dataset ds :
  selects (select_vertical query dataset ds) 0.
Proof.
  unfold select_vertical. destruct (z query) as [v|]; [|apply selects_ret].
  destruct (truth v); [apply selects_call_cf_sel|apply selects_ret].
Qed.

Lemma selects_select_temporal query ds : selects (select_temporal query ds) 0.
Proof.
  unfold select_temporal. destruct (truthy (datetime query)); [|apply selects_ret].
  apply selects_try_except.
  - destruct (split "/" _) as [|d0 [|d1 [|d2 ds']]];
      auto using selects_raise, selects_call_cf_sel.
  - intros [] h [= <-]. apply selects_raise.
Qed.

Lemma selects_select_variables query ds : selects (select_variables query ds) 0.
Proof.
  unfold select_variables. destruct (truthy (parameters query)); [|apply selects_ret].
  apply selects_try_except; [by apply selects_calling_other|].
  intros [] h [= <-]. apply selects_raise.
Qed.

Lemma selects_select_extra request ds : selects (select_extra request ds) 1.
Proof.
  unfold select_extra. apply (selects_bind _ _ 0 1); [apply selects_lift|].
  intros [query_params method]. by apply selects_calling.
Qed.

Lemma selects_resolve_format query : selects (resolve_format query) 0.
Proof.
  unfold resolve_format. destruct (truthy (format query)); [|apply selects_ret].
  destruct (position_formats !! _); [apply selects_ret|apply selects_raise].
Qed.

Lemma selects_chain_from request query ds : selects (chain_from request query ds) 1.
Proof.
  unfold chain_from.
  apply (selects_bind _ _ 0 1); [apply selects_select_temporal|intros ds1].
  apply (selects_bind _ _ 0 1); [apply selects_select_variables|intros ds2].
  apply (selects_bind _ _ 1 0); [apply selects_select_extra|intros ds3].
  apply (selects_bind _ _ 0 0); [apply selects_resolve_format|intros fn].
  apply selects_ret.
Qed.

Lemma timed_block_chain request query dataset :
  timed_block request query dataset =
    let! ds := select_point query dataset in
    let! ds := select_vertical query dataset ds in
    chain_from request query ds.
Proof. reflexivity. Qed.

Lemma selects_timed_block request query dataset :
  selects (timed_block request query dataset) 1.
Proof.
  rewrite timed_block_chain.
  apply (selects_bind _ _ 0 1); [apply selects_select_point|intros ds1].
  apply (selects_bind _ _ 0 1); [apply selects_select_vertical|intros ds2].
  apply selects_chain_from.
Qed.

(** *** The handler on a cache miss, from the outcome of the timed block *)

Lemma get_position_miss request query dataset s c' r L :
  let key := cache_key_from_request "position" request query dataset in
  cache_get (st_cache s) key = (None, c') ->
  emits (timed_block request query dataset) r L ->
  get_position request query dataset s =
    after_block key L r (logs L (log (CacheGet key) (set_cache c' s))).
Proof.
  intros key Hget Hblock. unfold get_position, bind at 1, cache_get_call.
  fold key. rewrite Hget.
  generalize (log (CacheGet key) (set_cache c' s)). intros s0.
  unfold CostTimer, bind, perf_counter, ret. rewrite Hblock.
  destruct r as [[fn ds]|e]; simpl; [|done].
  rewrite st_clock_logs.
  replace (st_clock s0 + total_duration L - st_clock s0)
    with (total_duration L) by lia.
  unfold to_thread, calling. destruct (fn ds) as [[response|]|e]; [|done|done].
  unfold content_length.
  destruct (getitem (headers response) "content-length") as [v|]; [|done].
  by destruct (int v) as [size|].
Qed.

(** *** The extra dimensions *)

Lemma as_indexer_one value : tokens value = 1 -> as_indexer value = Label value.
Proof.
  unfold tokens, as_indexer.
  by destruct (split "/" value) as [|v0 [|v1 [|v2 vs]]].
Qed.

Lemma filter_all {A} (f : A -> bool) (l : list A) :
  (forall a, a ∈ l -> f a = true) -> List.filter f l = l.
Proof.
  induction l as [|a l IH]; simpl; [done|]. intros H.
  rewrite (H a) by apply list_elem_of_here. f_equal. apply IH.
  intros b Hb. apply H. by apply list_elem_of_further.
Qed.

Lemma filter_filter {A} (f g : A -> bool) (l : list A) :
  List.filter f (List.filter g l) = List.filter (fun a => g a && f a) l.
Proof.
  induction l as [|a l IH]; simpl; [done|].
  destruct (g a); simpl; [|done]. destruct (f a); by rewrite IH.
Qed.

Lemma filter_ext_elem {A} (f g : A -> bool) (l : list A) :
  (forall a, a ∈ l -> f a = g a) -> List.filter f l = List.filter g l.
Proof.
  induction l as [|a l IH]; simpl; [done|]. intros H.
  rewrite (H a) by apply list_elem_of_here. rewrite IH; [done|].
  intros b Hb. apply H. by apply list_elem_of_further.
Qed.

Lemma delete_reserved (d : dict string) (ks : list string) :
  NoDup (keys d) ->
  foldl (fun d query_param =>
           if mem query_param edr_query_params then delitem d query_param
           else d) d ks =
  List.filter (fun kv => negb (mem kv.1 edr_query_params && mem kv.1 ks)) d.
Proof.
  revert d. induction ks as [|k ks IH]; intros d Hd; simpl.
  - symmetry. apply filter_all. intros a _. by rewrite andb_false_r.
  - destruct (mem k edr_query_params) eqn:Hk.
    + rewrite IH, delitem_filter, filter_filter by
        (try rewrite delitem_filter by done; by try apply NoDup_filter_keys).
      apply filter_ext_elem. intros [k' v'] _. simpl.
      change (mem k' (k :: ks)) with ((k' =? k) || mem k' ks).
      destruct (String.eqb_spec k' k) as [->|Hne]; simpl; [by rewrite Hk|done].
    + rewrite IH by done. apply filter_ext_elem. intros [k' v'] _. simpl.
      change (mem k' (k :: ks)) with ((k' =? k) || mem k' ks).
      destruct (String.eqb_spec k' k) as [->|Hne]; simpl; [by rewrite Hk|done].
Qed.

(** The extra parameters are the items of the request's parameters whose
    key is not reserved. *)
Lemma extra_query_params_filter request :
  extra_query_params request =
    List.filter (fun kv => negb (mem kv.1 edr_query_params))
                (dict_of_items (query_params request)).
Proof.
  unfold extra_query_params. rewrite delete_reserved by apply NoDup_dict_of_items.
  apply filter_ext_elem. intros [k v] Hin. simpl.
  assert (mem k (keys (dict_of_items (query_params request))) = true) as ->.
  { apply mem_true. unfold keys. apply list_elem_of_fmap. by exists (k, v). }
  by rewrite andb_true_r.
Qed.

Lemma NoDup_extra_query_params request :
  NoDup (keys (extra_query_params request)).
Proof.
  rewrite extra_query_params_filter.
  apply NoDup_filter_keys, NoDup_dict_of_items.
Qed.

Lemma tokens_pos value : 0 < tokens value.
Proof. unfold tokens. rewrite split_length. lia. Qed.

Lemma setitem_middle {V} (l1 l2 : dict V) k v0 v :
  k ∉ keys l1 -> setitem (l1 ++ (k, v0) :: l2) k v = l1 ++ (k, v) :: l2.
Proof.
  induction l1 as [|[k' v'] l1 IH]; simpl.
  - intros _. by rewrite String.eqb_refl.
  - intros [Hne Hnin]%not_elem_of_cons.
    destruct (String.eqb_spec k' k); [congruence|]. f_equal. by apply IH.
Qed.

Lemma keys_fmap_value {V W} (f : V -> W) (d : dict V) :
  keys (prod_map id f <$> d) = keys d.
Proof.
  unfold keys. induction d as [|[k v] d IH]; simpl; [done|]. f_equal. apply IH.
Qed.

Lemma slice_ranges_ok (pre post : dict string) method :
  NoDup (keys (pre ++ post)) ->
  Forall (fun kv => tokens kv.2 <= 2) post ->
  slice_ranges post
    ((prod_map id as_indexer <$> pre) ++ (prod_map id Label <$> post)) method =
  Ok (prod_map id as_indexer <$> (pre ++ post),
      if existsb (fun kv => tokens kv.2 =? 2) post then None else method).
Proof.
  revert pre method. induction post as [|[key value] post IH];
    intros pre method Hnd Hall.
  - simpl. by rewrite !app_nil_r.
  - apply Forall_cons in Hall as [Hv Hall]. simpl in Hv.
    assert (key ∉ keys pre) as Hkey.
    { unfold keys in *. rewrite fmap_app in Hnd.
      apply NoDup_app in Hnd as (_ & Hd & _). intros Hin.
      apply (Hd key Hin). simpl. apply list_elem_of_here. }
    assert (pre ++ (key, value) :: post = (pre ++ [(key, value)]) ++ post) as Hre
      by (by rewrite <- app_assoc).
    pose proof (tokens_pos value) as Hpos.
    cbn [slice_ranges]. unfold tokens in Hv, Hpos.
    cbn [existsb snd]. unfold tokens at 1.
    destruct (split "/" value) as [|v0 [|v1 [|v2 vs]]] eqn:Hsplit;
      simpl in Hv, Hpos; try lia.
    + specialize (IH (pre ++ [(key, value)]) method).
      rewrite <- Hre in IH. rewrite Hre, fmap_app in IH at 1. simpl in IH.
      unfold as_indexer at 2 in IH. rewrite Hsplit in IH.
      rewrite fmap_cons. simpl.
      replace ((prod_map id as_indexer <$> pre) ++
               (key, Label value) :: (prod_map id Label <$> post))
        with (((prod_map id as_indexer <$> pre) ++ [(key, Label value)]) ++
              (prod_map id Label <$> post)) by (by rewrite <- app_assoc).
      apply IH; [by rewrite <- Hre|done].
    + rewrite fmap_cons. simpl.
      rewrite setitem_middle by (by rewrite keys_fmap_value).
      specialize (IH (pre ++ [(key, value)]) None).
      rewrite <- Hre in IH. rewrite Hre, fmap_app in IH at 1. simpl in IH.
      unfold as_indexer at 2 in IH. rewrite Hsplit in IH.
      replace ((prod_map id as_indexer <$> pre) ++
               (key, Slice v0 v1) :: (prod_map id Label <$> post))
        with (((prod_map id as_indexer <$> pre) ++ [(key, Slice v0 v1)]) ++
              (prod_map id Label <$> post)) by (by rewrite <- app_assoc).
      rewrite IH; [|by rewrite <- Hre|done]. by destruct (existsb _ post).
Qed.

Lemma slice_ranges_too_many (pre : dict string) key value post d method :
  Forall (fun kv => tokens kv.2 <= 2) pre ->
  2 < tokens value ->
  slice_ranges (pre ++ (key, value) :: post) d method =
    Raise (HTTPException 404 ("Too many values for selecting " +:+ key)).
Proof.
  intros Hpre Hv. revert d method.
  induction pre as [|[k v] pre IH]; intros d method; simpl.
  - unfold tokens in Hv.
    destruct (split "/" value) as [|v0 [|v1 [|v2 vs]]]; simpl in Hv; try lia; done.
  - apply Forall_cons in Hpre as [Hk Hpre]. simpl in Hk.
    pose proof (tokens_pos v) as Hpos. unfold tokens in Hk, Hpos.
    destruct (split "/" v) as [|v0 [|v1 [|v2 vs]]]; simpl in Hk, Hpos; try lia;
      by apply IH.
Qed.

Lemma existsb_two_tokens (d : dict string) :
  existsb (fun kv => tokens kv.2 =? 2) d = true <->
  Exists (fun kv => tokens kv.2 = 2) d.
Proof.
  rewrite existsb_exists, Exists_exists. split.
  - intros (kv & Hin & Hkv%Nat.eqb_eq). exists kv. split; [by apply list_elem_of_In|done].
  - intros (kv & Hin & Hkv). exists kv. split; [by apply list_elem_of_In|by apply Nat.eqb_eq].
Qed.

Lemma fmap_as_indexer_one (d : dict string) :
  Forall (fun kv => tokens kv.2 = 1) d ->
  prod_map id as_indexer <$> d = prod_map id Label <$> d.
Proof.
  induction 1 as [|[k v] d Hv _ IH]; [done|].
  rewrite !fmap_cons, IH. simpl in *. by rewrite as_indexer_one.
Qed.

(** C1: the extra parameters are the request's parameters whose key is not
    reserved, and they go into one combined [ds.sel] call.  When every
    value is a single token the call uses the method [nearest] on the
    values as they are; when at least one value is a pair and none has more
    than two tokens, the one call is made without a method (exact labels
    and slices) for all of them; a value with more than two tokens raises
    a 404 naming its key, before any call.  The whole timed block makes at
    most one [ds.sel] call. *)
Theorem extra_dimensions_one_call request ds s :
  let extras := extra_query_params request in
  extras = List.filter (fun kv => negb (mem kv.1 edr_query_params))
                       (dict_of_items (query_params request))
  /\ (Forall (fun kv => tokens kv.2 = 1) extras ->
     select_extra request ds s =
       (sel ds (prod_map id Label <$> extras) (Some "nearest"),
        log (Sel ds (prod_map id Label <$> extras) (Some "nearest")) s))
  /\ (Forall (fun kv => tokens kv.2 <= 2) extras ->
      Exists (fun kv => tokens kv.2 = 2) extras ->
      select_extra request ds s =
        (sel ds (prod_map id as_indexer <$> extras) None,
         log (Sel ds (prod_map id as_indexer <$> extras) None) s))
  /\ (forall pre key value post,
        extras = pre ++ (key, value) :: post ->
        Forall (fun kv => tokens kv.2 <= 2) pre ->
        2 < tokens value ->
        select_extra request ds s =
          (Raise (HTTPException 404 ("Too many values for selecting " +:+ key)),
           s))
  /\ (forall query dataset, selects (timed_block request query dataset) 1).
Proof.
  intros extras.
  assert (forall method,
            Forall (fun kv => tokens kv.2 <= 2) extras ->
            slice_ranges extras (prod_map id Label <$> extras) method =
              Ok (prod_map id as_indexer <$> extras,
                  if existsb (fun kv => tokens kv.2 =? 2) extras then None
                  else method)) as Hok.
  { intros method Hall.
    pose proof (slice_ranges_ok [] extras method) as H. simpl in H.
    apply H; [apply NoDup_extra_query_params|done]. }
  repeat split.
  - apply extra_query_params_filter.
  - intros Hone. unfold select_extra, bind, lift. fold extras.
    rewrite Hok by (eapply Forall_impl; [exact Hone|simpl; lia]).
    assert (existsb (fun kv => tokens kv.2 =? 2) extras = false) as ->.
    { apply not_true_iff_false. rewrite existsb_two_tokens, Exists_exists.
      intros (kv & Hin & Hkv). rewrite Forall_forall in Hone.
      specialize (Hone kv Hin). simpl in Hone. lia. }
    by rewrite (fmap_as_indexer_one _ Hone).
  - intros Hall Hex. unfold select_extra, bind, lift. fold extras.
    rewrite Hok by done.
    apply existsb_two_tokens in Hex. by rewrite Hex.
  - intros pre key value post Hextras Hpre Hv.
    unfold select_extra, bind, lift. fold extras. rewrite Hextras at 1.
    by rewrite slice_ranges_too_many.
  - intros query dataset. apply selects_timed_block.
Qed.

(** *** The temporal selection *)

Lemma split_two sep s :
  count sep s = 1 ->
  exists a b, split sep s = [a; b] /\ s = a +:+ String sep b.
Proof.
  induction s as [|c s IH]; simpl; [done|].
  destruct (Ascii.eqb_spec c sep) as [->|Hne]; simpl.
  - intros [= H]. exists "", s. by rewrite (split_one _ _ H).
  - intros H. destruct (IH H) as (a & b & -> & ->). by exists (String c a), b.
Qed.

Lemma split_many sep s :
  2 <= count sep s ->
  exists a b c rest, split sep s = a :: b :: c :: rest.
Proof.
  intros H. pose proof (split_length sep s) as Hlen.
  destruct (split sep s) as [|a [|b [|c rest]]]; simpl in Hlen; try lia.
  by exists a, b, c, rest.
Qed.

(** C2 (amended): a datetime that is set is split on [/].  Without a
    separator, T is selected with the method [nearest]; with one
    separator, T is selected by the slice from the first part to the
    second; with two or more, the handler raises a 404 with the fixed
    detail [Invalid datetimes submitted] before any lookup.  A
    [ValueError] of the lookup becomes a 404 whose detail carries its
    message; any other outcome of the lookup is passed on. *)
Theorem datetime_selection query ds s dt :
  datetime query = Some dt ->
  dt <> "" ->
  (count "/" dt = 0 ->
     select_temporal query ds s =
       (match cf_sel ds [("T", Label dt)] (Some "nearest") with
        | Raise (ValueError msg) =>
            Raise (HTTPException 404 ("Invalid datetime (" +:+ msg +:+ ")"))
        | r => r
        end,
        log (CfSel ds [("T", Label dt)] (Some "nearest")) s))
  /\ (count "/" dt = 1 ->
      exists start stop,
        dt = start +:+ "/" +:+ stop /\
        select_temporal query ds s =
          (match cf_sel ds [("T", Slice start stop)] None with
           | Raise (ValueError msg) =>
               Raise (HTTPException 404 ("Invalid datetime (" +:+ msg +:+ ")"))
           | r => r
           end,
           log (CfSel ds [("T", Slice start stop)] None) s))
  /\ (2 <= count "/" dt ->
      select_temporal query ds s =
        (Raise (HTTPException 404 "Invalid datetimes submitted"), s))
  /\ (forall msg,
        contains msg ("Invalid datetime (" +:+ msg +:+ ")") = true).
Proof.
  intros Hdt Hne.
  assert (truthy (datetime query) = true) as Htruthy
    by (rewrite Hdt; by destruct dt).
  unfold select_temporal. rewrite Htruthy, Hdt. simpl default.
  repeat split.
  - intros H0. rewrite (split_one _ _ H0). unfold try_except, call_cf_sel, calling.
    by destruct (cf_sel _ _ _) as [?|[]].
  - intros H1. destruct (split_two _ _ H1) as (start & stop & Hsplit & Heq).
    exists start, stop. split; [done|]. rewrite Hsplit.
    unfold try_except, call_cf_sel, calling.
    by destruct (cf_sel _ _ _) as [?|[]].
  - intros H2. destruct (split_many _ _ H2) as (a & b & c & rest & ->). done.
  - intros msg. apply contains_app_r, contains_here.
Qed.

(** *** The variable subsetting *)

(** C8: parameters that are set are split on commas and the dataset is
    replaced by [ds.cf[names]] for exactly these names; a [KeyError] of
    that lookup becomes a 404 whose detail is [Invalid variable: ]
    followed by the key error's text, which names the missing key. *)
Theorem variable_subsetting query ds s p :
  parameters query = Some p ->
  p <> "" ->
  select_variables query ds s =
    (match cf_getitem ds (split "," p) with
     | Raise (KeyError msg) =>
         Raise (HTTPException 404 ("Invalid variable: " +:+ msg))
     | r => r
     end,
     log (CfGetitem ds (split "," p)) s)
  /\ (forall msg, contains msg ("Invalid variable: " +:+ msg) = true).
Proof.
  intros Hp Hne.
  assert (truthy (parameters query) = true) as Htruthy
    by (rewrite Hp; by destruct p).
  unfold select_variables. rewrite Htruthy, Hp. simpl default. split.
  - unfold try_except, call_cf_getitem, calling.
    by destruct (cf_getitem _ _) as [?|[]].
  - intros msg. apply contains_app_r. destruct msg; [done|].
    simpl. destruct (ascii_dec a a); [|done]. by rewrite prefix_refl.
Qed.

(** *** The formatter *)

Lemma position_formats_None name :
  position_formats !! name = None <-> name ∉ entry_points.*1.
Proof.
  unfold position_formats.
  assert (forall (l : list (string * format_fn)) (m : gmap string format_fn),
            foldl (fun formats entry_point =>
                     <[entry_point.1 := entry_point.2]> formats) m l !! name = None
            <-> m !! name = None /\ name ∉ l.*1) as H.
  { induction l as [|[k fn] l IH]; intros m; simpl.
    - split; [intros ?; split; [done|apply not_elem_of_nil]|by intros [? _]].
    - rewrite IH, lookup_insert_None, not_elem_of_cons. simpl.
      split; [intros [[? ?] ?]|intros [? [? ?]]]; repeat split; auto. }
  rewrite H, lookup_empty. tauto.
Qed.


Lemma selects_result {A} (m : M A) n s1 s2 : selects m n -> (m s1).1 = (m s2).1.
Proof. intros (r & L & Hm & _). by rewrite !Hm. Qed.


Lemma filter_selection_format (L : list Call) :
  forallb is_selection L = true -> List.filter is_format L = [].
Proof.
  induction L as [|c L IH]; simpl; [done|].
  intros [Hc HL]%andb_true_iff. rewrite IH by done. by destruct c.
Qed.

Lemma filter_selection_put (L : list Call) :
  forallb is_selection L = true -> List.filter is_put L = [].
Proof.
  induction L as [|c L IH]; simpl; [done|].
  intros [Hc HL]%andb_true_iff. rewrite IH by done. by destruct c.
Qed.

(** A successful run on a cache miss, step by step. *)
Lemma get_position_miss_ok request query dataset s c' response s' :
  let key := cache_key_from_request "position" request query dataset in
  cache_get (st_cache s) key = (None, c') ->
  get_position request query dataset s = (Ok response, s') ->
  exists L fn ds v size,
    emits (timed_block request query dataset) (Ok (fn, ds)) L /\
    forallb is_selection L = true /\
    fn ds = Ok (Some response) /\
    getitem (headers response) "content-length" = Some v /\
    int v = Some size /\
    st_calls s' =
      st_calls s ++ [CacheGet key] ++ L ++
      [ToThread fn ds; CachePut key response (total_duration L) size] /\
    st_cache s' = cache_put c' key response (total_duration L) size.
Proof.
  intros key Hget Hrun.
  destruct (selects_timed_block request query dataset) as (r & L & Hblock & HL & _).
  rewrite (get_position_miss _ _ _ _ _ _ _ Hget Hblock) in Hrun. fold key in Hrun.
  unfold after_block in Hrun. destruct r as [[fn ds]|e]; [|done].
  destruct (fn ds) as [[response'|]|e] eqn:Hfn; [|done|done].
  destruct (getitem (headers response') "content-length") as [v|] eqn:Hv; [|done].
  destruct (int v) as [size|] eqn:Hsize; [|done].
  injection Hrun as -> <-.
  exists L, fn, ds, v, size. repeat split; try done.
  - simpl. rewrite st_calls_logs. simpl. by rewrite <- !app_assoc.
  - simpl. by rewrite st_cache_logs.
Qed.


(** *** The vertical selection *)

(** With a true [z] and a point selection that returns, the block goes on
    from a selection of Z on [dataset]; the point selection's result is
    dropped. *)
Lemma timed_block_vertical request query dataset s v ds0 :
  z query = Some v ->
  truth v = true ->
  cf_sel dataset [("X", Num (x (point query))); ("Y", Num (y (point query)))]
         (Some "nearest") = Ok ds0 ->
  timed_block request query dataset s =
    (let! dz := call_cf_sel dataset [("Z", Num v)] (Some "nearest") in
     chain_from request query dz)
      (log (CfSel dataset
              [("X", Num (x (point query))); ("Y", Num (y (point query)))]
              (Some "nearest")) s).
Proof.
  intros Hz Hv Hxy. rewrite timed_block_chain.
  unfold bind at 1, select_point, try_except, call_cf_sel at 1, calling at 1.
  rewrite Hxy. unfold select_vertical. by rewrite Hz, Hv.
Qed.

(** A [z] that is set but false, such as zero, is treated like no [z]. *)
Lemma select_vertical_falsy query dataset ds s :
  truthy_z (z query) = false -> select_vertical query dataset ds s = (Ok ds, s).
Proof.
  unfold select_vertical, truthy_z. destruct (z query) as [v|]; [|done].
  by intros ->.
Qed.


Lemma after_block_result key1 key2 L1 L2 r s1 s2 :
  (after_block key1 L1 r s1).1 = (after_block key2 L2 r s2).1.
Proof.
  unfold after_block. destruct r as [[fn ds]|e]; [|done].
  destruct (fn ds) as [[response|]|e]; [|done|done].
  destruct (getitem (headers response) "content-length") as [v|]; [|done].
  by destruct (int v).
Qed.

Lemma chain_from_fields request1 request2 (query1 query2 : EDRQuery Scalar) ds :
  datetime query1 = datetime query2 ->
  parameters query1 = parameters query2 ->
  format query1 = format query2 ->
  extra_query_params request1 = extra_query_params request2 ->
  chain_from request1 query1 ds = chain_from request2 query2 ds.
Proof.
  intros Hd Hp Hf He.
  unfold chain_from, select_temporal, select_variables, select_extra,
    resolve_format.
  by rewrite Hd, Hp, Hf, He.
Qed.

(** C10: two requests with the same true [z], datetime, parameters, format
    and extra parameters, whose point selections both return, have the
    same outcome of the timed block (the formatter and the reduced
    dataset, or the same exception) whatever their points are, and on a
    cache miss the same response. *)
Theorem response_ignores_point request1 request2 query1 query2 dataset
    s1 s2 ds1 ds2 :
  truthy_z (z query1) = true ->
  z query1 = z query2 ->
  datetime query1 = datetime query2 ->
  parameters query1 = parameters query2 ->
  format query1 = format query2 ->
  extra_query_params request1 = extra_query_params request2 ->
  cf_sel dataset [("X", Num (x (point query1))); ("Y", Num (y (point query1)))]
         (Some "nearest") = Ok ds1 ->
  cf_sel dataset [("X", Num (x (point query2))); ("Y", Num (y (point query2)))]
         (Some "nearest") = Ok ds2 ->
  (timed_block request1 query1 dataset s1).1 =
  (timed_block request2 query2 dataset s2).1
  /\ (forall c1 c2,
        cache_get (st_cache s1)
          (cache_key_from_request "position" request1 query1 dataset) = (None, c1) ->
        cache_get (st_cache s2)
          (cache_key_from_request "position" request2 query2 dataset) = (None, c2) ->
        (get_position request1 query1 dataset s1).1 =
        (get_position request2 query2 dataset s2).1).
Proof.
  intros Hz Hzz Hd Hp Hf He Hxy1 Hxy2.
  assert (forall s s', (timed_block request1 query1 dataset s).1 =
                       (timed_block request2 query2 dataset s').1) as Hsame.
  { intros s s'. unfold truthy_z in Hz.
    destruct (z query1) as [v|] eqn:Hz1; [|done]. symmetry in Hzz.
    rewrite (timed_block_vertical _ _ _ _ _ _ Hz1 Hz Hxy1).
    rewrite (timed_block_vertical _ _ _ _ _ _ Hzz Hz Hxy2).
    unfold bind, call_cf_sel, calling.
    destruct (cf_sel dataset [("Z", Num v)] (Some "nearest")) as [dz|e]; [|done].
    rewrite (chain_from_fields request1 request2 query1 query2 dz Hd Hp Hf He).
    apply (selects_result _ 1), selects_chain_from. }
  split; [apply Hsame|]. intros c1 c2 Hget1 Hget2.
  destruct (selects_timed_block request1 query1 dataset) as (r1 & L1 & Hb1 & _).
  destruct (selects_timed_block request2 query2 dataset) as (r2 & L2 & Hb2 & _).
  assert (r1 = r2) as <-.
  { specialize (Hsame s1 s2). by rewrite Hb1, Hb2 in Hsame. }
  rewrite (get_position_miss _ _ _ _ _ _ _ Hget1 Hb1).
  rewrite (get_position_miss _ _ _ _ _ _ _ Hget2 Hb2).
  apply after_block_result.
Qed.

(** *** The cache *)

Lemma total_duration_app (L1 L2 : list Call) :
  total_duration (L1 ++ L2) = total_duration L1 + total_duration L2.
Proof.
  unfold total_duration. rewrite fmap_app.
  induction (duration <$> L1) as [|n l IH]; simpl; [done|]. rewrite IH. lia.
Qed.

Lemma path_time_block (L : list Call) fn ds :
  forallb is_selection L = true ->
  path_time (L ++ [ToThread fn ds]) = total_duration L + duration (ToThread fn ds).
Proof.
  intros HL. unfold path_time. rewrite List.filter_app, total_duration_app.
  rewrite filter_all.
  - f_equal. unfold total_duration. cbn. apply Nat.add_0_r.
  - intros c Hc. rewrite forallb_forall in HL.
    rewrite HL by (by apply list_elem_of_In). done.
Qed.

(** C4 (amended): on a successful cache miss the entry is stored once, after
    the formatter has run.  Its cost is the time of the calls made inside
    the timed block, which are the selections; the formatter runs after
    the block and its time is not part of the cost.  Its size is the
    integer value of the response's [content-length] header. *)
Theorem recorded_cost_and_size request query dataset s c' response s' :
  let key := cache_key_from_request "position" request query dataset in
  cache_get (st_cache s) key = (None, c') ->
  get_position request query dataset s = (Ok response, s') ->
  exists L fn ds v size,
    emits (timed_block request query dataset) (Ok (fn, ds)) L /\
    fn ds = Ok (Some response) /\
    getitem (headers response) "content-length" = Some v /\
    int v = Some size /\
    st_calls s' =
      st_calls s ++ [CacheGet key] ++ L ++
      [ToThread fn ds; CachePut key response (total_duration L) size] /\
    path_time (L ++ [ToThread fn ds]) =
      total_duration L + duration (ToThread fn ds) /\
    st_cache s' = cache_put c' key response (total_duration L) size.
Proof.
  intros key Hget Hrun.
  destruct (get_position_miss_ok _ _ _ _ _ _ _ Hget Hrun)
    as (L & fn & ds & v & size & Hblock & HL & Hfn & Hv & Hsize & Hcalls & Hcache).
  exists L, fn, ds, v, size. repeat split; try done.
  by apply path_time_block.
Qed.

Lemma get_position_hit request query dataset s c' response :
  let key := cache_key_from_request "position" request query dataset in
  cache_get (st_cache s) key = (Some response, c') ->
  get_position request query dataset s =
    (Ok response, log (CacheGet key) (set_cache c' s)).
Proof.
  intros key Hget. unfold get_position, bind, cache_get_call. fold key.
  by rewrite Hget.
Qed.


(** On a cache miss the handler ends in what the timed block raises. *)
Lemma get_position_block_raises request query dataset s c' e :
  let key := cache_key_from_request "position" request query dataset in
  cache_get (st_cache s) key = (None, c') ->
  (timed_block request query dataset s).1 = Raise e ->
  (get_position request query dataset s).1 = Raise e.
Proof.
  intros key Hget Hblock.
  destruct (selects_timed_block request query dataset) as (r & L & Hemits & _).
  rewrite Hemits in Hblock. simpl in Hblock. subst r.
  by rewrite (get_position_miss _ _ _ _ _ _ _ Hget Hemits).
Qed.

(** A [KeyError] of the vertical selection is not caught: it is the
    outcome of the request. *)
Lemma vertical_key_error_escapes request query dataset s c' v ds0 msg :
  let key := cache_key_from_request "position" request query dataset in
  cache_get (st_cache s) key = (None, c') ->
  z query = Some v ->
  truth v = true ->
  cf_sel dataset [("X", Num (x (point query))); ("Y", Num (y (point query)))]
         (Some "nearest") = Ok ds0 ->
  cf_sel dataset [("Z", Num v)] (Some "nearest") = Raise (KeyError msg) ->
  (get_position request query dataset s).1 = Raise (KeyError msg).
Proof.
  intros key Hget Hz Hv Hxy Hraise.
  apply (get_position_block_raises _ _ _ _ _ _ Hget).
  rewrite (timed_block_vertical _ _ _ _ _ _ Hz Hv Hxy).
  unfold bind, call_cf_sel, calling. by rewrite Hraise.
Qed.

(** A [KeyError] of the selection on the extra dimensions is not caught
    either. *)
Lemma select_extra_key_error_escapes request ds s query_params method msg :
  slice_ranges (extra_query_params request)
               (prod_map id Label <$> extra_query_params request)
               (Some "nearest") = Ok (query_params, method) ->
  sel ds query_params method = Raise (KeyError msg) ->
  (select_extra request ds s).1 = Raise (KeyError msg).
Proof.
  intros Hranges Hraise. unfold select_extra, bind, lift, call_sel, calling.
  by rewrite Hranges, Hraise.
Qed.

(** A field that is not set, or set to the empty string, is skipped. *)
Lemma unset_fields_skip query ds s :
  (truthy (datetime query) = false -> select_temporal query ds s = (Ok ds, s))
  /\ (truthy (parameters query) = false ->
      select_variables query ds s = (Ok ds, s))
  /\ (truthy (format query) = false ->
      resolve_format query s = (Ok to_cf_covjson, s)).
Proof.
  unfold select_temporal, select_variables, resolve_format.
  repeat split; by intros ->.
Qed.

(** X6: a request that misses the cache and fails, with whatever
    exception, leaves the cache as the lookup left it and makes no
    [cache.put]. *)
Lemma failure_leaves_cache request query dataset s c' e s' :
  let key := cache_key_from_request "position" request query dataset in
  cache_get (st_cache s) key = (None, c') ->
  get_position request query dataset s = (Raise e, s') ->
  st_cache s' = c' /\
  exists new, st_calls s' = st_calls s ++ new /\ List.filter is_put new = [].
Proof.
  intros key Hget Hrun.
  destruct (selects_timed_block request query dataset) as (r & L & Hblock & HL & _).
  rewrite (get_position_miss _ _ _ _ _ _ _ Hget Hblock) in Hrun. fold key in Hrun.
  unfold after_block in Hrun. destruct r as [[fn ds]|e0].
  - assert (s' = log (ToThread fn ds) (logs L (log (CacheGet key) (set_cache c' s))))
      as ->.
    { destruct (fn ds) as [[response|]|e1]; [|by injection Hrun|by injection Hrun].
      destruct (getitem (headers response) "content-length") as [v|];
        [|by injection Hrun].
      destruct (int v); [done|by injection Hrun]. }
    split; [simpl; by rewrite st_cache_logs|].
    exists ([CacheGet key] ++ L ++ [ToThread fn ds]). split.
    + simpl. rewrite st_calls_logs. simpl. by rewrite <- !app_assoc.
    + simpl. rewrite List.filter_app, filter_selection_put by done. done.
  - injection Hrun as _ <-. split; [by rewrite st_cache_logs|].
    exists ([CacheGet key] ++ L). split.
    + rewrite st_calls_logs. simpl. by rewrite <- app_assoc.
    + simpl. by apply filter_selection_put.
Qed.


End PluginFacts.

(** ** Beyond the selection plan: registry, parameters, order of calls *)

Section MoreDictFacts.
Context {V : Type}.
Implicit Types (d : dict V) (k : string) (v : V).

Lemma getitem_app d1 d2 k :
  getitem (d1 ++ d2) k =
    match getitem d1 k with Some v => Some v | None => getitem d2 k end.
Proof.
  induction d1 as [|[k' v'] d1 IH]; simpl; [done|].
  by destruct (String.eqb k' k).
Qed.

Lemma getitem_setitem d k v k' :
  getitem (setitem d k v) k' = if String.eqb k k' then Some v else getitem d k'.
Proof.
  induction d as [|[k0 v0] d IH]; simpl.
  - done.
  - destruct (String.eqb_spec k0 k) as [->|Hne]; simpl.
    + by destruct (String.eqb k k').
    + rewrite IH. destruct (String.eqb_spec k0 k') as [->|Hne'].
      * by destruct (String.eqb_spec k k'); [congruence|].
      * done.
Qed.

Lemma getitem_dict_of_items (items : list (string * V)) k :
  getitem (dict_of_items items) k = getitem (reverse items) k.
Proof.
  unfold dict_of_items.
  assert (forall d,
            getitem (foldl (fun d kv => setitem d kv.1 kv.2) d items) k =
              match getitem (reverse items) k with
              | Some v => Some v
              | None => getitem d k
              end) as H.
  { induction items as [|[k0 v0] items IH]; intros d; simpl; [done|].
    rewrite IH, reverse_cons, getitem_app, getitem_setitem. simpl.
    destruct (getitem (reverse items) k); [done|].
    by destruct (String.eqb k0 k). }
  rewrite H. by destruct (getitem (reverse items) k).
Qed.

Lemma getitem_filter_key d (keep : string -> bool) k :
  getitem (List.filter (fun kv => keep kv.1) d) k =
    if keep k then getitem d k else None.
Proof.
  induction d as [|[k0 v0] d IH]; simpl; [by destruct (keep k)|].
  destruct (keep k0) eqn:Hk0; simpl.
  - destruct (String.eqb_spec k0 k) as [->|Hne]; [by rewrite Hk0|done].
  - rewrite IH. destruct (String.eqb_spec k0 k) as [->|Hne]; [by rewrite Hk0|done].
Qed.

End MoreDictFacts.

Section MorePluginFacts.
Context `{C : Collaborators}.

Notation "'let!' x ':=' m 'in' k" := (bind m (fun x => k))
  (at level 10, x pattern, m at level 100, k at level 200).

(** X3: the value of an extra parameter is the last one the query string
    gives for its key, and a reserved key has no value among the extra
    parameters, however often it occurs. *)
Theorem extra_parameter_lookup request k :
  getitem (extra_query_params request) k =
    if mem k edr_query_params then None
    else getitem (reverse (query_params request)) k.
Proof.
  rewrite extra_query_params_filter.
  rewrite (getitem_filter_key _ (fun k => negb (mem k edr_query_params))).
  rewrite getitem_dict_of_items. by destruct (mem k edr_query_params).
Qed.

Lemma lookup_foldl_insert (l : list (string * format_fn))
    (m : gmap string format_fn) name :
  foldl (fun formats entry_point =>
           <[entry_point.1 := entry_point.2]> formats) m l !! name =
    match getitem (reverse l) name with
    | Some fn => Some fn
    | None => m !! name
    end.
Proof.
  revert m. induction l as [|[k fn] l IH]; intros m; simpl; [done|].
  rewrite IH, reverse_cons, getitem_app. simpl.
  destruct (getitem (reverse l) name); [done|].
  destruct (String.eqb_spec k name) as [->|Hne].
  - by rewrite lookup_insert_eq.
  - by rewrite lookup_insert_ne.
Qed.

(** X1: the registry maps a name to the function of the last entry point
    with that name; a name no entry point has is not a key. *)
Theorem registry_last_entry_point name :
  position_formats !! name = getitem (reverse entry_points) name
  /\ (forall before fn after,
        entry_points = before ++ (name, fn) :: after ->
        name ∉ after.*1 ->
        position_formats !! name = Some fn)
  /\ (name ∉ entry_points.*1 -> position_formats !! name = None).
Proof.
  assert (position_formats !! name = getitem (reverse entry_points) name) as Hlast.
  { unfold position_formats. rewrite lookup_foldl_insert, lookup_empty.
    by destruct (getitem _ name). }
  split; [done|]. split.
  - intros before fn after Heq Hnotin. rewrite Hlast, Heq.
    rewrite reverse_app, reverse_cons, getitem_app, getitem_app.
    assert (getitem (reverse after) name = None) as ->.
    { clear -Hnotin. induction after as [|[k v] after IH]; [done|].
      rewrite fmap_cons in Hnotin. apply not_elem_of_cons in Hnotin as [Hne Hnotin].
      rewrite reverse_cons, getitem_app, IH by done. simpl in *.
      by destruct (String.eqb_spec k name); [congruence|]. }
    simpl. by rewrite String.eqb_refl.
  - by intros ?%position_formats_None.
Qed.

(** X2: the formats endpoint lists a name exactly when the position
    endpoint accepts it as a format: for a listed name the lookup gives the
    function whose doc string is listed, for any other name it raises the
    invalid-format error. *)
Theorem formats_endpoint_lists_accepted (doc : format_fn -> option string)
    query s name :
  format query = Some name ->
  name <> "" ->
  (forall listed,
     get_position_formats doc !! name = Some listed ->
     exists fn, resolve_format query s = (Ok fn, s) /\ listed = doc fn)
  /\ (get_position_formats doc !! name = None ->
      resolve_format query s = (Raise (invalid_format name), s))
  /\ (is_Some (get_position_formats doc !! name) <-> name ∈ entry_points.*1).
Proof.
  intros Hf Hne.
  assert (resolve_format query s =
            match position_formats !! name with
            | Some fn => (Ok fn, s)
            | None => (Raise (invalid_format name), s)
            end) as Hrun.
  { unfold resolve_format. rewrite Hf. simpl. destruct name; [done|].
    by destruct (position_formats !! _). }
  unfold get_position_formats. rewrite lookup_fmap.
  split; [|split].
  - intros listed Hlisted. destruct (position_formats !! name) as [fn|]; [|done].
    exists fn. split; [done|]. by injection Hlisted.
  - intros Hnone. by destruct (position_formats !! name).
  - rewrite fmap_is_Some. split.
    + intros Hsome. destruct (decide (name ∈ entry_points.*1)) as [|Hnotin]; [done|].
      apply position_formats_None in Hnotin. rewrite Hnotin in Hsome.
      by destruct Hsome.
    + intros Hin. destruct (position_formats !! name) eqn:Hlookup; [done|].
      by apply position_formats_None in Hlookup.
Qed.

(** *** The order of the calls *)

Lemma emits_unique {A} (m : M A) r1 L1 r2 L2 (s : state) :
  emits m r1 L1 -> emits m r2 L2 -> r1 = r2 /\ L1 = L2.
Proof.
  intros H1 H2. specialize (H1 s). rewrite H2 in H1.
  injection H1 as <- Hlogs. split; [done|].
  apply (f_equal st_calls) in Hlogs. rewrite !st_calls_logs in Hlogs.
  by apply app_inv_head in Hlogs.
Qed.

Lemma filter_nil_elem {A} (f : A -> bool) (l : list A) a :
  List.filter f l = [] -> a ∈ l -> f a = false.
Proof.
  induction l as [|b l IH]; simpl; [by intros _ ?%not_elem_of_nil|].
  destruct (f b) eqn:Hb; [done|].
  intros Hl [->|Hin]%elem_of_cons; [done|by apply IH].
Qed.

Lemma timed_block_select_all request query dataset s :
  timed_block request query dataset s =
    (let! ds := select_all request query dataset in
     let! format_fn := resolve_format query in
     ret (format_fn, ds)) s.
Proof.
  unfold timed_block, select_all, select_axes, bind.
  destruct (select_point query dataset s) as [[ds1|e] s1]; [|done].
  destruct (select_vertical query dataset ds1 s1) as [[ds2|e] s2]; [|done].
  destruct (select_temporal query ds2 s2) as [[ds3|e] s3]; [|done].
  by destruct (select_variables query ds3 s3) as [[ds4|e] s4].
Qed.

Lemma resolve_format_pure query :
  exists rf, forall s, resolve_format query s = (rf, s).
Proof.
  unfold resolve_format. destruct (truthy (format query)); [|by eexists].
  destruct (position_formats !! _); by eexists.
Qed.

Lemma selects_select_axes query dataset : selects (select_axes query dataset) 0.
Proof.
  unfold select_axes.
  apply (selects_bind _ _ 0 0); [apply selects_select_point|intros ds1].
  apply (selects_bind _ _ 0 0); [apply selects_select_vertical|intros ds2].
  apply (selects_bind _ _ 0 0); [apply selects_select_temporal|intros ds3].
  apply selects_select_variables.
Qed.

(** The selections end with the one [ds.sel] call, or fail before it. *)
Lemma select_all_shape request query dataset :
  exists r L,
    emits (select_all request query dataset) r L /\
    forallb is_selection L = true /\
    ((List.filter is_sel L = [] /\ exists e, r = Raise e) \/
     (exists L0 d qp m,
        L = L0 ++ [Sel d qp m] /\ List.filter is_sel L0 = [] /\
        r = sel d qp m /\
        slice_ranges (extra_query_params request)
                     (prod_map id Label <$> extra_query_params request)
                     (Some "nearest") = Ok (qp, m))).
Proof.
  destruct (selects_select_axes query dataset) as (r0 & L0 & Haxes & HL0 & Hn0).
  assert (List.filter is_sel L0 = []) as Hnosel
    by (destruct (List.filter is_sel L0); [done|simpl in Hn0; lia]).
  destruct r0 as [ds4|e].
  - destruct (slice_ranges (extra_query_params request)
                (prod_map id Label <$> extra_query_params request)
                (Some "nearest")) as [[qp m]|e] eqn:Hranges.
    + exists (sel ds4 qp m), (L0 ++ [Sel ds4 qp m]). split; [|split].
      * intros s. unfold select_all, bind. rewrite Haxes.
        unfold select_extra, bind, lift. rewrite Hranges.
        unfold call_sel, calling. by rewrite logs_app.
      * by rewrite forallb_app, HL0.
      * right. by exists L0, ds4, qp, m.
    + exists (Raise e), L0. split; [|split; [done|left; eauto]].
      intros s. unfold select_all, bind. rewrite Haxes.
      unfold select_extra, bind, lift. by rewrite Hranges.
  - exists (Raise e), L0. split; [|split; [done|left; eauto]].
    intros s. unfold select_all, bind. by rewrite Haxes.
Qed.

Lemma timed_block_after_selection request query dataset :
  exists rs rf L,
    emits (select_all request query dataset) rs L /\
    (forall s, resolve_format query s = (rf, s)) /\
    emits (timed_block request query dataset)
      (match rs with
       | Ok ds => match rf with Ok fn => Ok (fn, ds) | Raise e => Raise e end
       | Raise e => Raise e
       end) L /\
    forallb is_selection L = true /\
    ((List.filter is_sel L = [] /\ exists e, rs = Raise e) \/
     (exists L0 d qp m,
        L = L0 ++ [Sel d qp m] /\ List.filter is_sel L0 = [] /\
        rs = sel d qp m /\
        slice_ranges (extra_query_params request)
                     (prod_map id Label <$> extra_query_params request)
                     (Some "nearest") = Ok (qp, m))).
Proof.
  destruct (select_all_shape request query dataset) as (rs & L & Hsel & HL & Hshape).
  destruct (resolve_format_pure query) as (rf & Hrf).
  exists rs, rf, L. repeat split; try done.
  intros s. rewrite timed_block_select_all. unfold bind. rewrite Hsel.
  destruct rs as [ds|e]; [|done]. rewrite Hrf. by destruct rf.
Qed.

Lemma slice_ranges_keys (items : dict string) (d : dict (indexer Scalar))
    method qp method' :
  (forall kv, kv ∈ items -> kv.1 ∈ keys d) ->
  slice_ranges items d method = Ok (qp, method') ->
  keys qp = keys d /\ (method' = method \/ method' = None).
Proof.
  revert d method. induction items as [|[key value] items IH];
    intros d method Hin Hrun; simpl in Hrun.
  - injection Hrun as <- <-. auto.
  - assert (forall kv, kv ∈ items -> kv.1 ∈ keys d) as Hrest
      by (intros kv Hkv; apply Hin; by apply list_elem_of_further).
    destruct (split "/" value) as [|v0 [|v1 [|v2 vs]]]; try done.
    + by apply IH.
    + assert (keys (setitem d key (Slice (Scalar := Scalar) v0 v1)) = keys d)
        as Hkeys.
      { apply keys_setitem_in. apply (Hin (key, value)). apply list_elem_of_here. }
      apply IH in Hrun as [Hq Hm].
      * rewrite Hq, Hkeys. split; [done|]. destruct Hm; auto.
      * intros kv Hkv. rewrite Hkeys. by apply Hrest.
Qed.

Lemma after_block_calls key L r (s1 : state) :
  exists tail,
    st_calls (after_block key L r s1).2 = st_calls s1 ++ tail /\
    List.filter is_sel tail = [].
Proof.
  unfold after_block. destruct r as [[fn ds]|e];
    [|exists []; by rewrite app_nil_r].
  destruct (fn ds) as [[response|]|e];
    [|by exists [ToThread fn ds]|by exists [ToThread fn ds]].
  destruct (getitem (headers response) "content-length") as [v|];
    [|by exists [ToThread fn ds]].
  destruct (int v) as [size|]; [|by exists [ToThread fn ds]].
  exists [ToThread fn ds; CachePut key response (total_duration L) size].
  split; [|done]. simpl. by rewrite <- app_assoc.
Qed.

(** X4: whatever the outcome of a request, it makes at most one [ds.sel]
    call, and the indexers of that call have exactly the keys of the extra
    parameters, in their order: each key once, no reserved key, and the
    method is [nearest] or none. *)
Theorem sel_receives_only_extras request query dataset s :
  exists new,
    st_calls (get_position request query dataset s).2 = st_calls s ++ new /\
    List.length (List.filter is_sel new) <= 1 /\
    forall d qp m,
      Sel d qp m ∈ new ->
      keys qp = keys (extra_query_params request) /\
      NoDup (keys qp) /\
      Forall (fun k => mem k edr_query_params = false) (keys qp) /\
      (m = Some "nearest" \/ m = None).
Proof.
  set (key := cache_key_from_request "position" request query dataset).
  destruct (cache_get (st_cache s) key) as [[response|] c'] eqn:Hget.
  - rewrite (get_position_hit _ _ _ _ _ _ Hget). exists [CacheGet key].
    split; [done|]. split; [simpl; lia|].
    by intros d qp m ?%list_elem_of_singleton.
  - destruct (timed_block_after_selection request query dataset)
      as (rs & rf & L & _ & _ & Hblock & HL & Hshape).
    rewrite (get_position_miss _ _ _ _ _ _ _ Hget Hblock). fold key.
    destruct (after_block_calls key L
                (match rs with
                 | Ok ds => match rf with
                            | Ok fn => Ok (fn, ds)
                            | Raise e => Raise e
                            end
                 | Raise e => Raise e
                 end)
                (logs L (log (CacheGet key) (set_cache c' s))))
      as (tail & -> & Htail).
    exists ([CacheGet key] ++ L ++ tail). split.
    { rewrite st_calls_logs. simpl. by rewrite <- !app_assoc. }
    assert (List.length (List.filter is_sel L) <= 1 /\
            forall d qp m, Sel d qp m ∈ L ->
              slice_ranges (extra_query_params request)
                (prod_map id Label <$> extra_query_params request)
                (Some "nearest") = Ok (qp, m)) as [Hcount Hsel].
    { destruct Hshape as [[Hnone _]|(L0 & d0 & qp0 & m0 & -> & Hnone & _ & Hranges)];
        unfold Call in *.
      - rewrite Hnone. split; [simpl; lia|]. intros d qp m Hin.
        by apply (filter_nil_elem _ _ _ Hnone) in Hin.
      - rewrite List.filter_app, Hnone. split; [simpl; lia|].
        intros d qp m Hin.
        apply elem_of_app in Hin as [Hin|Hin].
        + by apply (filter_nil_elem _ _ _ Hnone) in Hin.
        + apply list_elem_of_singleton in Hin. by injection Hin as -> -> ->. }
    unfold Call in *. split.
    { simpl. rewrite List.filter_app, Htail, app_nil_r. exact Hcount. }
    intros d qp m Hin. simpl in Hin.
    apply elem_of_cons in Hin as [Hin|Hin]; [done|].
    apply elem_of_app in Hin as [Hin|Hin];
      [|by apply (filter_nil_elem _ _ _ Htail) in Hin].
    apply Hsel in Hin. apply slice_ranges_keys in Hin as [Hkeys Hm].
    + rewrite keys_fmap_value in Hkeys. rewrite Hkeys.
      split; [done|]. split; [apply NoDup_extra_query_params|]. split; [|done].
      rewrite extra_query_params_filter. apply Forall_forall. intros k Hk.
      unfold keys in Hk. apply list_elem_of_fmap in Hk as ([k' v] & -> & Hkv).
      apply list_elem_of_In, List.filter_In in Hkv as [_ Hkeep]. simpl in *.
      by apply negb_true_iff.
    + intros kv Hkv. rewrite keys_fmap_value. unfold keys.
      apply list_elem_of_fmap. by exists kv.
Qed.

(** X5: a successful request that missed the cache ends with three calls in
    this order: the one [ds.sel], the formatter on the dataset that
    [ds.sel] returned, and [cache.put] of the formatter's response, which
    is the response of the request. *)
Theorem successful_miss_call_order request query dataset s c' response s' :
  let key := cache_key_from_request "position" request query dataset in
  cache_get (st_cache s) key = (None, c') ->
  get_position request query dataset s = (Ok response, s') ->
  exists L0 d qp m ds fn cost size,
    st_calls s' =
      st_calls s ++ [CacheGet key] ++ L0 ++
      [Sel d qp m; ToThread fn ds; CachePut key response cost size] /\
    forallb is_selection L0 = true /\
    List.filter is_sel L0 = [] /\
    sel d qp m = Ok ds /\
    fn ds = Ok (Some response).
Proof.
  intros key Hget Hrun.
  destruct (get_position_miss_ok _ _ _ _ _ _ _ Hget Hrun)
    as (L & fn & ds & v & size & Hblock & HL & Hfn & _ & _ & Hcalls & _).
  destruct (timed_block_after_selection request query dataset)
    as (rs & rf & L' & _ & _ & Hblock' & _ & Hshape).
  destruct (emits_unique _ _ _ _ _ s Hblock Hblock') as [Hr <-].
  destruct rs as [ds'|e]; [|done]. destruct rf as [fn'|e]; [|done].
  injection Hr as <- <-.
  destruct Hshape as [[_ [e [=]]]|(L0 & d & qp & m & -> & Hnone & Hsel & _)].
  exists L0, d, qp, m, ds, fn, (total_duration (L0 ++ [Sel d qp m])), size.
  fold key in Hcalls. rewrite Hcalls. split; [by rewrite <- !app_assoc|].
  rewrite forallb_app in HL. apply andb_true_iff in HL as [HL0 _]. done.
Qed.

(** *** Failures and edge cases of a request *)

(** X9: when the point selection raises, the request stops after it: a
    [KeyError] becomes the 404 about CF metadata, any other exception is
    passed on as it is, whatever else the query asks for; the cache lookup
    and the point selection are the only calls. *)
Theorem point_selection_error request query dataset s c' e :
  let key := cache_key_from_request "position" request query dataset in
  let point_call :=
    CfSel dataset [("X", Num (x (point query))); ("Y", Num (y (point query)))]
          (Some "nearest") in
  cache_get (st_cache s) key = (None, c') ->
  cf_sel dataset [("X", Num (x (point query))); ("Y", Num (y (point query)))]
         (Some "nearest") = Raise e ->
  get_position request query dataset s =
    (Raise (match e with
            | KeyError _ =>
                HTTPException 404
                  "Dataset does not have CF Convention compliant metadata"
            | _ => e
            end),
     log point_call (log (CacheGet key) (set_cache c' s))).
Proof.
  intros key point_call Hget Hraise.
  assert (emits (timed_block request query dataset)
            (Raise (match e with
                    | KeyError _ =>
                        HTTPException 404
                          "Dataset does not have CF Convention compliant metadata"
                    | _ => e
                    end)) [point_call]) as Hblock.
  { intros s0. unfold timed_block, bind at 1, select_point, try_except,
      call_cf_sel, calling.
    rewrite Hraise. by destruct e. }
  by rewrite (get_position_miss _ _ _ _ _ _ _ Hget Hblock).
Qed.

(** X8: with a format that is set and not registered, the request still
    performs all its selections first: an error of the selections is the
    outcome, the invalid-format error is the outcome only when the
    selections succeed, and no formatter is called. *)
Theorem unknown_format_after_selection request query dataset s c' name :
  let key := cache_key_from_request "position" request query dataset in
  format query = Some name ->
  name <> "" ->
  position_formats !! name = None ->
  cache_get (st_cache s) key = (None, c') ->
  (get_position request query dataset s).1 =
    Raise (match (select_all request query dataset s).1 with
           | Ok _ => invalid_format name
           | Raise e => e
           end)
  /\ exists L,
       emits (select_all request query dataset)
             (select_all request query dataset s).1 L /\
       st_calls (get_position request query dataset s).2 =
         st_calls s ++ [CacheGet key] ++ L /\
       List.filter is_format L = [].
Proof.
  intros key Hf Hne Hnone Hget.
  destruct (timed_block_after_selection request query dataset)
    as (rs & rf & L & Hsel & Hrf & Hblock & HL & _).
  assert (rf = Raise (invalid_format name)) as ->.
  { specialize (Hrf s). unfold resolve_format in Hrf. rewrite Hf in Hrf.
    simpl in Hrf. destruct name; [done|]. rewrite Hnone in Hrf.
    by injection Hrf. }
  rewrite (get_position_miss _ _ _ _ _ _ _ Hget Hblock). fold key.
  rewrite (Hsel s). simpl. split.
  - by destruct rs.
  - exists L. split; [done|]. split; [|by apply filter_selection_format].
    destruct rs; simpl; rewrite st_calls_logs; simpl; by rewrite <- app_assoc.
Qed.

(** X7: an optional field of the query that tests false (an empty string,
    a false number) counts as absent: the timed block of a query is the
    timed block of the query without such fields, call by call, and on a
    cache miss the responses are the same. *)
Theorem empty_fields_as_absent request query dataset :
  (forall s,
     timed_block request (without_empty query) dataset s =
     timed_block request query dataset s)
  /\ (forall s c1 c2,
        cache_get (st_cache s)
          (cache_key_from_request "position" request query dataset) = (None, c1) ->
        cache_get (st_cache s)
          (cache_key_from_request "position" request (without_empty query) dataset)
          = (None, c2) ->
        (get_position request (without_empty query) dataset s).1 =
        (get_position request query dataset s).1).
Proof.
  assert (forall s,
            timed_block request (without_empty query) dataset s =
            timed_block request query dataset s) as Hsame.
  { intros s. unfold timed_block, select_point, select_vertical,
      select_temporal, select_variables, resolve_format, without_empty.
    destruct query as [pt zq dq pq fq]. simpl.
    assert (forall o : option string,
              truthy (if truthy o then o else None) = truthy o) as Htruthy
      by (intros [[|]|]; done).
    assert (forall o : option string,
              truthy o = true -> (if truthy o then o else None) = o) as Hkeep
      by (by intros o ->).
    rewrite !Htruthy.
    destruct zq as [v|]; simpl.
    - destruct (truth v) eqn:Hv; simpl; rewrite ?Hv;
        destruct (truthy dq) eqn:Hd; destruct (truthy pq) eqn:Hp;
        destruct (truthy fq) eqn:Hfq; simpl; reflexivity.
    - destruct (truthy dq) eqn:Hd; destruct (truthy pq) eqn:Hp;
        destruct (truthy fq) eqn:Hfq; simpl; reflexivity. }
  split; [exact Hsame|]. intros s c1 c2 Hget1 Hget2.
  destruct (selects_timed_block request query dataset) as (r & L & Hblock & _).
  assert (emits (timed_block request (without_empty query) dataset) r L) as Hblock'
    by (intros s0; by rewrite Hsame).
  rewrite (get_position_miss _ _ _ _ _ _ _ Hget1 Hblock).
  rewrite (get_position_miss _ _ _ _ _ _ _ Hget2 Hblock').
  apply after_block_result.
Qed.

(** X10: when the formatter's response has no [content-length] header, or
    one that is not an integer, the request fails with a [KeyError] or a
    [ValueError] after the formatter has run once, and nothing is put into
    the cache. *)
Theorem unusable_content_length request query dataset s c' fn ds response :
  let key := cache_key_from_request "position" request query dataset in
  cache_get (st_cache s) key = (None, c') ->
  (timed_block request query dataset s).1 = Ok (fn, ds) ->
  fn ds = Ok (Some response) ->
  (forall v, getitem (headers response) "content-length" = Some v ->
             int v = None) ->
  (exists msg,
     (get_position request query dataset s).1 = Raise (KeyError msg) \/
     (get_position request query dataset s).1 = Raise (ValueError msg))
  /\ st_cache (get_position request query dataset s).2 = c'
  /\ exists new,
       st_calls (get_position request query dataset s).2 = st_calls s ++ new /\
       List.filter is_format new = [ToThread fn ds] /\
       List.filter is_put new = [].
Proof.
  intros key Hget Hok Hfn Hheader.
  destruct (selects_timed_block request query dataset) as (r & L & Hblock & HL & _).
  rewrite Hblock in Hok. simpl in Hok. subst r.
  rewrite (get_position_miss _ _ _ _ _ _ _ Hget Hblock). fold key.
  unfold after_block. rewrite Hfn.
  assert (exists new,
            st_calls (log (ToThread fn ds)
                        (logs L (log (CacheGet key) (set_cache c' s)))) =
              st_calls s ++ new /\
            List.filter is_format new = [ToThread fn ds] /\
            List.filter is_put new = []) as Hcalls.
  { exists ([CacheGet key] ++ L ++ [ToThread fn ds]). split.
    - simpl. rewrite st_calls_logs. simpl. by rewrite <- !app_assoc.
    - simpl. rewrite !List.filter_app, filter_selection_format,
        filter_selection_put by done. done. }
  destruct (getitem (headers response) "content-length") as [v|] eqn:Hv.
  - rewrite (Hheader v eq_refl). simpl. split; [eauto|].
    split; [by rewrite st_cache_logs|done].
  - simpl. split; [eauto|]. split; [by rewrite st_cache_logs|done].
Qed.

End MorePluginFacts.

(** ** Runs on the grids of [Demo] *)

Import Demo.

Lemma extra_dimensions_one_call_witness :
  let request :=
    request_of 1 [("coords", "POINT(1 2)"); ("level", "3"); ("depth", "10/20")] in
  extra_query_params request = [("level", "3"); ("depth", "10/20")] /\
  select_extra request ocean fresh =
    (sel ocean [("level", Label "3"); ("depth", Slice "10" "20")] None,
     log (Sel ocean [("level", Label "3"); ("depth", Slice "10" "20")] None) fresh).
Proof.
  intros request. split; [reflexivity|].
  destruct (extra_dimensions_one_call request ocean fresh) as (_ & _ & H & _).
  apply H.
  - repeat constructor; vm_compute; lia.
  - apply Exists_cons_tl, Exists_cons_hd. reflexivity.
Defined.

Lemma datetime_selection_witness :
  let query := with_datetime "2000-01-01" (at_point 1 2) in
  datetime query = Some "2000-01-01" /\
  select_temporal query ocean fresh =
    (Ok (picking ocean [("T", Label "2000-01-01")]),
     log (CfSel ocean [("T", Label "2000-01-01")] (Some "nearest")) fresh).
Proof.
  intros query. split; [reflexivity|].
  destruct (datetime_selection query ocean fresh "2000-01-01" eq_refl
              ltac:(discriminate)) as (H & _).
  rewrite (H eq_refl). reflexivity.
Defined.

Lemma datetime_detail_is_fixed :
  let query := with_datetime "2000/2001/2002" (at_point 1 2) in
  let request := request_of 1 [("coords", "POINT(1 2)"); ("datetime", "2000/2001/2002")] in
  (get_position request query ocean fresh).1 =
    Raise (HTTPException 404 "Invalid datetimes submitted") /\
  ~ (exists detail,
       (get_position request query ocean fresh).1 = Raise (HTTPException 404 detail) /\
       contains "2000/2001/2002" detail = true).
Proof.
  intros query request. split; [vm_compute; reflexivity|].
  intros (detail & Hrun & Hsurfaced). vm_compute in Hrun.
  injection Hrun as <-. vm_compute in Hsurfaced. discriminate.
Qed.


Lemma recorded_cost_and_size_witness :
  let query := at_point 1 2 in
  let request := request_of 1 [("coords", "POINT(1 2)"); ("level", "3")] in
  let key := cache_key_from_request "position" request query ocean in
  let run := get_position request query ocean fresh in
  run.1 = Ok (respond "{temp,salinity,u}") /\
  exists L fn ds v size,
    emits (timed_block request query ocean) (Ok (fn, ds)) L /\
    fn ds = Ok (Some (respond "{temp,salinity,u}")) /\
    getitem (headers (respond "{temp,salinity,u}")) "content-length" = Some v /\
    int v = Some size /\
    st_calls run.2 =
      st_calls fresh ++ [CacheGet key] ++ L ++
      [ToThread fn ds;
       CachePut key (respond "{temp,salinity,u}") (total_duration L) size] /\
    path_time (L ++ [ToThread fn ds]) =
      total_duration L + duration (ToThread fn ds) /\
    st_cache run.2 =
      cache_put [] key (respond "{temp,salinity,u}") (total_duration L) size.
Proof.
  intros query request key run.
  assert (run.1 = Ok (respond "{temp,salinity,u}")) as Hresponse
    by (vm_compute; reflexivity).
  split; [exact Hresponse|].
  apply (recorded_cost_and_size request query ocean fresh [] _ run.2).
  - reflexivity.
  - rewrite <- Hresponse. apply surjective_pairing.
Defined.

Lemma cost_leaves_out_formatter :
  let query := at_point 1 2 in
  let request := request_of 1 [("coords", "POINT(1 2)"); ("level", "3")] in
  let run := get_position request query ocean fresh in
  run.1 = Ok (respond "{temp,salinity,u}") /\
  put_costs (st_calls run.2) = [2] /\
  path_time (st_calls run.2) = 7 /\
  put_costs (st_calls run.2) <> [path_time (st_calls run.2)].
Proof.
  intros query request run.
  assert (put_costs (st_calls run.2) = [2]) as Hcost by (vm_compute; reflexivity).
  assert (path_time (st_calls run.2) = 7) as Htime by (vm_compute; reflexivity).
  split; [vm_compute; reflexivity|]. split; [exact Hcost|]. split; [exact Htime|].
  rewrite Hcost, Htime. discriminate.
Qed.


(** C7: a request with [z] on a grid whose metadata has no vertical axis
    ends in the [KeyError] of the vertical selection, and a request with
    [level=3] and [depth=10/20] on a grid without the level [3] ends in
    the [KeyError] of [ds.sel]; neither is a 404 [HTTPException]. *)
Theorem lookup_errors_escape :
  (get_position (request_of 1 [("coords", "POINT(1 2)"); ("z", "5")])
                (with_z 5 (at_point 1 2)) surface fresh).1 =
    Raise (KeyError "'Z'")
  /\ (get_position
        (request_of 2 [("coords", "POINT(1 2)"); ("level", "3"); ("depth", "10/20")])
        (at_point 1 2) surface fresh).1 =
      Raise (KeyError "'3'").
Proof. split; vm_compute; reflexivity. Qed.

Lemma variable_subsetting_witness :
  let query := with_parameters "temp,salinity" (at_point 1 2) in
  parameters query = Some "temp,salinity" /\
  select_variables query ocean fresh =
    (Ok {| axes := axes ocean; variables := ["temp"; "salinity"];
           dims := dims ocean; picked := [] |},
     log (CfGetitem ocean ["temp"; "salinity"]) fresh) /\
  select_variables query surface fresh =
    (Raise (HTTPException 404 "Invalid variable: 'salinity'"),
     log (CfGetitem surface ["temp"; "salinity"]) fresh).
Proof.
  intros query. split; [reflexivity|]. split.
  - destruct (variable_subsetting query ocean fresh "temp,salinity" eq_refl
                ltac:(discriminate)) as (H & _).
    rewrite H. reflexivity.
  - destruct (variable_subsetting query surface fresh "temp,salinity" eq_refl
                ltac:(discriminate)) as (H & _).
    rewrite H. reflexivity.
Defined.


Lemma response_ignores_point_witness :
  let query1 := with_z 5 (at_point 1 2) in
  let query2 := with_z 5 (at_point 30 40) in
  let request1 := request_of 1 [("coords", "POINT(1 2)"); ("z", "5")] in
  let request2 := request_of 2 [("coords", "POINT(30 40)"); ("z", "5")] in
  truthy_z (z query1) = true /\
  (timed_block request1 query1 ocean fresh).1 =
  (timed_block request2 query2 ocean fresh).1 /\
  (get_position request1 query1 ocean fresh).1 =
  (get_position request2 query2 ocean fresh).1.
Proof.
  intros query1 query2 request1 request2. split; [reflexivity|].
  destruct (response_ignores_point request1 request2 query1 query2 ocean
              fresh fresh
              (picking ocean [("X", Num 1%Z); ("Y", Num 2%Z)])
              (picking ocean [("X", Num 30%Z); ("Y", Num 40%Z)])
              eq_refl eq_refl eq_refl eq_refl eq_refl eq_refl eq_refl eq_refl)
    as (Hblock & Hrun).
  split; [exact Hblock|]. apply (Hrun [] []); reflexivity.
Defined.

(** ** Further runs on the grids of [Demo] *)

Lemma formats_endpoint_lists_accepted_witness :
  let query := with_format "csv" (at_point 1 2) in
  let doc := fun _ : format_fn => Some "Position data as text" in
  format query = Some "csv" /\
  (get_position_formats doc !! "bogus" = None ->
   resolve_format (with_format "bogus" (at_point 1 2)) fresh =
     (Raise (invalid_format "bogus"), fresh)) /\
  (is_Some (get_position_formats doc !! "csv") <->
   "csv" ∈ (@entry_points collaborators).*1).
Proof.
  intros query doc. split; [reflexivity|]. split.
  - destruct (formats_endpoint_lists_accepted doc
                (with_format "bogus" (at_point 1 2)) fresh "bogus" eq_refl
                ltac:(discriminate)) as (_ & H & _).
    exact H.
  - destruct (formats_endpoint_lists_accepted doc query fresh "csv" eq_refl
                ltac:(discriminate)) as (_ & _ & H).
    exact H.
Defined.

Lemma successful_miss_call_order_witness :
  let query := at_point 1 2 in
  let request := request_of 1 [("coords", "POINT(1 2)"); ("level", "3")] in
  let key := cache_key_from_request "position" request query ocean in
  let run := get_position request query ocean fresh in
  run.1 = Ok (respond "{temp,salinity,u}") /\
  exists L0 d qp m ds fn cost size,
    st_calls run.2 =
      st_calls fresh ++ [CacheGet key] ++ L0 ++
      [Sel d qp m; ToThread fn ds;
       CachePut key (respond "{temp,salinity,u}") cost size] /\
    forallb is_selection L0 = true /\
    List.filter is_sel L0 = [] /\
    sel d qp m = Ok ds /\
    fn ds = Ok (Some (respond "{temp,salinity,u}")).
Proof.
  intros query request key run.
  assert (run.1 = Ok (respond "{temp,salinity,u}")) as Hresponse
    by (vm_compute; reflexivity).
  split; [exact Hresponse|].
  apply (successful_miss_call_order request query ocean fresh [] _ run.2).
  - reflexivity.
  - rewrite <- Hresponse. apply surjective_pairing.
Defined.

Lemma failure_leaves_cache_witness :
  let query := with_z 5 (at_point 1 2) in
  let request := request_of 1 [("coords", "POINT(1 2)"); ("z", "5")] in
  let run := get_position request query surface fresh in
  run.1 = Raise (KeyError "'Z'") /\
  st_cache run.2 = [] /\
  exists new,
    st_calls run.2 = st_calls fresh ++ new /\ List.filter is_put new = [].
Proof.
  intros query request run.
  assert (run.1 = Raise (KeyError "'Z'")) as Hfailed by (vm_compute; reflexivity).
  split; [exact Hfailed|].
  apply (failure_leaves_cache request query surface fresh [] (KeyError "'Z'") run.2).
  - reflexivity.
  - rewrite <- Hfailed. apply surjective_pairing.
Defined.

Lemma unknown_format_after_selection_witness :
  let query := with_format "bogus" (with_z 5 (at_point 1 2)) in
  let request := request_of 1 [("coords", "POINT(1 2)"); ("f", "bogus")] in
  format query = Some "bogus" /\
  (get_position request query ocean fresh).1 = Raise (invalid_format "bogus") /\
  (get_position request query surface fresh).1 = Raise (KeyError "'Z'").
Proof.
  intros query request. split; [reflexivity|]. split.
  - destruct (unknown_format_after_selection request query ocean fresh []
                "bogus" eq_refl ltac:(discriminate) eq_refl eq_refl) as (H & _).
    rewrite H. reflexivity.
  - destruct (unknown_format_after_selection request query surface fresh []
                "bogus" eq_refl ltac:(discriminate) eq_refl eq_refl) as (H & _).
    rewrite H. reflexivity.
Defined.

Lemma point_selection_error_witness :
  let profile : @Dataset collaborators :=
    {| axes := ["Z"; "T"]; variables := ["temp"]; dims := []; picked := [] |} in
  let query := with_z 5 (at_point 1 2) in
  let request := request_of 1 [("coords", "POINT(1 2)"); ("z", "5")] in
  cf_sel profile [("X", Num 1%Z); ("Y", Num 2%Z)] (Some "nearest") =
    Raise (KeyError "'X'") /\
  (get_position request query profile fresh).1 =
    Raise (HTTPException 404
             "Dataset does not have CF Convention compliant metadata").
Proof.
  intros profile query request. split; [reflexivity|].
  rewrite (point_selection_error request query profile fresh [] (KeyError "'X'")
             eq_refl eq_refl).
  reflexivity.
Defined.

Lemma unusable_content_length_witness :
  let query := Headless.at_point 1 2 in
  let request := request_of 1 [("coords", "POINT(1 2)")] in
  let run := get_position request query Headless.ocean Headless.fresh in
  Headless.bare (picking (picking Demo.ocean [("X", Num 1%Z); ("Y", Num 2%Z)]) [])
    = Ok (Some {| body := "{}"; headers := [] |}) /\
  (exists msg, run.1 = Raise (KeyError msg) \/ run.1 = Raise (ValueError msg)) /\
  st_cache run.2 = [].
Proof.
  intros query request run. split; [reflexivity|].
  destruct (unusable_content_length request query Headless.ocean Headless.fresh
              [] Headless.bare
              (picking (picking Demo.ocean [("X", Num 1%Z); ("Y", Num 2%Z)]) [])
              {| body := "{}"; headers := [] |})
    as (Hfails & Hcache & _).
  - reflexivity.
  - vm_compute. reflexivity.
  - reflexivity.
  - intros v Hv. discriminate Hv.
  - split; [exact Hfails|exact Hcache].
Defined.
